(** * Sketch learner: a shallow embedding of [components/sketch-learner.tsx]

    The React component keeps a label vocabulary, an in-memory data set of
    (image tensor, one-hot target) pairs, one live TensorFlow.js model, a
    status line and the last prediction.  Every event handler of the
    component is embedded as a function on an explicit [State] record; the
    handlers run to completion one at a time, so a handler is one atomic
    state transition.

    TensorFlow.js itself is not part of the repository.  Its shape-level
    behaviour (tensor shapes, bilinear resampling, concatenation, the shape
    checks of [fit]) is written out; its numerical kernels (the optimiser
    run of [fit], the forward pass of [predict]) are taken as a [Backend]
    passed to the handlers.  Arithmetic on tensor entries is exact rational
    arithmetic extended with NaN and the two infinities; rounding to
    float32 is not modelled, nor is the rounding of the source coordinates
    of the resize.  The texts of the messages that TensorFlow.js puts in
    its errors name layers and shapes; where a text is not known it is a
    placeholder, and the theorems do not depend on it. *)

From Stdlib Require Import QArith Qround Lqa ZArith Lia Strings.Byte DecimalString.
From stdpp Require Import gmap strings list fin_maps.

Close Scope Q_scope.
Open Scope Z_scope.
Open Scope nat_scope.

(** ** JavaScript values used by the component *)

Module Js.

(** A JavaScript number: a finite value, NaN, or an infinity.  Signed
    zeros are identified. *)
Inductive number : Type :=
  | NaN
  | NegInfinity
  | Fin (q : Q)
  | PosInfinity.

Definition neg (a : number) : number :=
  match a with
  | NaN => NaN
  | NegInfinity => PosInfinity
  | Fin q => Fin (- q)%Q
  | PosInfinity => NegInfinity
  end.

Definition add (a b : number) : number :=
  match a, b with
  | NaN, _ | _, NaN => NaN
  | Fin x, Fin y => Fin (x + y)%Q
  | PosInfinity, NegInfinity | NegInfinity, PosInfinity => NaN
  | PosInfinity, _ | _, PosInfinity => PosInfinity
  | NegInfinity, _ | _, NegInfinity => NegInfinity
  end.

Definition sub (a b : number) : number := add a (neg b).

(** The infinity [i] multiplied by a finite factor of the given sign. *)
Definition scaleInf (i : number) (q : Q) : number :=
  match (q ?= 0)%Q with
  | Eq => NaN
  | Gt => i
  | Lt => neg i
  end.

Definition mul (a b : number) : number :=
  match a, b with
  | NaN, _ | _, NaN => NaN
  | Fin x, Fin y => Fin (x * y)%Q
  | Fin x, i | i, Fin x => scaleInf i x
  | PosInfinity, PosInfinity | NegInfinity, NegInfinity => PosInfinity
  | _, _ => NegInfinity
  end.

Definition div (a b : number) : number :=
  match a, b with
  | NaN, _ | _, NaN => NaN
  | Fin x, Fin y =>
      match (y ?= 0)%Q with
      | Eq => scaleInf PosInfinity x
      | _ => Fin (x / y)%Q
      end
  | Fin _, _ => Fin 0
  | i, Fin y => if Qle_bool 0 y then i else neg i
  | _, _ => NaN
  end.

(** [a === b] on numbers: NaN is different from everything. *)
Definition strictEq (a b : number) : bool :=
  match a, b with
  | Fin x, Fin y => Qeq_bool x y
  | NegInfinity, NegInfinity | PosInfinity, PosInfinity => true
  | _, _ => false
  end.

(** [Math.max(a, b)]. *)
Definition max2 (a b : number) : number :=
  match a, b with
  | NaN, _ | _, NaN => NaN
  | PosInfinity, _ | _, PosInfinity => PosInfinity
  | NegInfinity, c | c, NegInfinity => c
  | Fin x, Fin y => if Qle_bool x y then Fin y else Fin x
  end.

(** [Math.max(...arr)]: the fold starts from -Infinity. *)
Definition Math_max (arr : list number) : number :=
  fold_left max2 arr NegInfinity.

(** [arr.indexOf(x)], counting from [i]: the first position whose element
    is equal to [x], and -1 when there is none. *)
Fixpoint indexOfFrom {A : Type} (eqb : A -> A -> bool)
    (arr : list A) (x : A) (i : Z) : Z :=
  match arr with
  | [] => (-1)%Z
  | y :: rest => if eqb y x then i else indexOfFrom eqb rest x (i + 1)%Z
  end.

Definition indexOf {A : Type} (eqb : A -> A -> bool) (arr : list A) (x : A) : Z :=
  indexOfFrom eqb arr x 0%Z.

(** [arr[i]] for an integer [i]: [None] stands for [undefined]. *)
Definition at_ {A : Type} (arr : list A) (i : Z) : option A :=
  if (i <? 0)%Z then None else arr !! Z.to_nat i.

(** An [Error] thrown inside a handler carries its message. *)
Inductive Exc (A : Type) : Type :=
  | Ok (a : A)
  | Throw (message : string).
Arguments Ok {A} a.
Arguments Throw {A} message.

#[global] Instance Exc_ret : MRet Exc := fun A a => Ok a.
#[global] Instance Exc_bind : MBind Exc := fun A B k e =>
  match e with
  | Ok a => k a
  | Throw msg => Throw msg
  end.

(** The double quote character of template strings. *)
Definition dq : string := String (Ascii.ascii_of_nat 34) EmptyString.

(** [`${n}`] for a non-negative integer. *)
Definition showNat (n : nat) : string := NilEmpty.string_of_uint (Nat.to_uint n).

(** [`${s}`] for a string that may be [undefined]. *)
Definition showStr (s : option string) : string := default "undefined" s.

End Js.

Import Js.

(** ** Tensors and the TensorFlow.js operations the component calls *)

Module tf.

(** A dense tensor: its shape and its entries in row-major order. *)
Record Tensor : Type := mkTensor { shape : list nat; values : list number }.

(** The read [xValues[i]] of a typed array; out of range it is [undefined],
    which arithmetic turns into NaN. *)
Definition get (xs : list number) (i : Z) : number := default NaN (at_ xs i).

(** [ctx.globalCompositeOperation], for the two values the component gives
    it. *)
Inductive CompositeOperation : Type := source_over | destination_out.

(** The canvas with its 2D context: the pixel buffer as [getImageData] sees
    it, four bytes (R, G, B, A) per pixel, rows first, and the compositing
    mode of the context, which a stroke sets and a later fill uses. *)
Record Canvas : Type := mkCanvas
  { width : nat; height : nat; rgba : list byte;
    globalCompositeOperation : CompositeOperation }.

Definition wellFormed (c : Canvas) : Prop :=
  0 < width c /\ 0 < height c /\ length (rgba c) = 4 * (height c * width c).

(** A read of the pixel buffer stored into the Int32Array of [fromPixels]:
    a missing byte is stored as 0. *)
Definition byteAt (data : list byte) (i : nat) : Z :=
  match data !! i with
  | Some b => Z.of_N (Byte.to_N b)
  | None => 0%Z
  end.

(** [tf.browser.fromPixels(canvas, numChannels)]: shape [H, W, numChannels],
    entry (pixel i, channel c) is byte [4 i + c] of the pixel buffer. *)
Definition fromPixels (canvas : Canvas) (numChannels : nat) : Tensor :=
  let numPixels := height canvas * width canvas in
  {| shape := [height canvas; width canvas; numChannels];
     values :=
       flat_map (fun i =>
         map (fun channel => Fin (inject_Z (byteAt (rgba canvas) (i * 4 + channel))))
             (seq 0 numChannels))
         (seq 0 numPixels) |}.

(** [t.toFloat()]: a change of dtype; the entries are the same numbers. *)
Definition toFloat (t : Tensor) : Tensor := t.

(** [t.div(c)] with a scalar [c]. *)
Definition divScalar (t : Tensor) (c : number) : Tensor :=
  {| shape := shape t; values := map (fun v => div v c) (values t) |}.

(** One output row/column coordinate of the resize: the two source
    coordinates and the interpolation weight.  The product is exact here;
    TensorFlow.js rounds it, so that where it is a whole number, or next to
    one, the floor it takes can be the row or column before. *)
Definition sourceCoord (ratio : Q) (old : nat) (r : nat) : Z * Z * Q :=
  let sourceFrac := (ratio * inject_Z (Z.of_nat r))%Q in
  let sourceFloor := Z.max 0 (Qfloor sourceFrac) in
  let frac := (sourceFrac - inject_Z sourceFloor)%Q in
  let sourceCeil := Z.min (Z.of_nat old - 1) (Qceiling sourceFrac) in
  (sourceFloor, sourceCeil, frac).

(** [tf.image.resizeBilinear(images, [newHeight, newWidth])] on a rank-3
    tensor, with the defaults alignCorners = false and
    halfPixelCenters = false. *)
Definition resizeBilinear (images : Tensor) (size : nat * nat) : Exc Tensor :=
  match shape images with
  | [oldHeight; oldWidth; numChannels] =>
      let '(newHeight, newWidth) := size in
      let xValues := values images in
      let stride1 := Z.of_nat (oldWidth * numChannels) in
      let stride2 := Z.of_nat numChannels in
      let effectiveRowSizeRatio := (inject_Z (Z.of_nat oldHeight) / inject_Z (Z.of_nat newHeight))%Q in
      let effectiveColSizeRatio := (inject_Z (Z.of_nat oldWidth) / inject_Z (Z.of_nat newWidth))%Q in
      Ok {| shape := [newHeight; newWidth; numChannels];
            values :=
              flat_map (fun r =>
                let '(sourceRowFloor, sourceRowCeil, rowFrac) :=
                  sourceCoord effectiveRowSizeRatio oldHeight r in
                let topRowOffset := (sourceRowFloor * stride1)%Z in
                let botRowOffset := (sourceRowCeil * stride1)%Z in
                flat_map (fun c =>
                  let '(sourceColFloor, sourceColCeil, colFrac) :=
                    sourceCoord effectiveColSizeRatio oldWidth c in
                  let topLeftOffset := (topRowOffset + sourceColFloor * stride2)%Z in
                  let botLeftOffset := (botRowOffset + sourceColFloor * stride2)%Z in
                  let topRightOffset := (topRowOffset + sourceColCeil * stride2)%Z in
                  let botRightOffset := (botRowOffset + sourceColCeil * stride2)%Z in
                  map (fun d =>
                    let topLeft := get xValues (topLeftOffset + Z.of_nat d) in
                    let bottomLeft := get xValues (botLeftOffset + Z.of_nat d) in
                    let topRight := get xValues (topRightOffset + Z.of_nat d) in
                    let bottomRight := get xValues (botRightOffset + Z.of_nat d) in
                    let top := add topLeft (mul (sub topRight topLeft) (Fin colFrac)) in
                    let bottom := add bottomLeft (mul (sub bottomRight bottomLeft) (Fin colFrac)) in
                    add top (mul (sub bottom top) (Fin rowFrac)))
                    (seq 0 numChannels))
                  (seq 0 newWidth))
                (seq 0 newHeight) |}
  | _ => Throw "Error in resizeBilinear: x must be rank 3 or 4"
  end.

(** [t.expandDims(0)]. *)
Definition expandDims0 (t : Tensor) : Tensor :=
  {| shape := 1 :: shape t; values := values t |}.

(** The vector of length [depth] with 1 at [index] and 0 elsewhere. *)
Definition oneHotVector (index : Z) (depth : nat) : Tensor :=
  {| shape := [depth];
     values := map (fun j => if (Z.of_nat j =? index)%Z then Fin 1 else Fin 0) (seq 0 depth) |}.

(** [tf.oneHot(index, depth)] for a scalar index: it refuses a depth below
    2. *)
Definition oneHot (index : Z) (depth : nat) : Exc Tensor :=
  if depth <? 2
  then Throw ("Error in oneHot: depth must be >=2, but it is " +:+ showNat depth)
  else Ok (oneHotVector index depth).

(** [tf.concat(tensors, 0)]: at least one tensor, and all of them of the
    same shape except along axis 0.  The texts of the messages are
    placeholders. *)
Definition concat0 (tensors : list Tensor) : Exc Tensor :=
  match tensors with
  | [] => Throw "Pass at least one tensor to concat"
  | t :: _ =>
      match shape t with
      | [] => Throw "Error in concat0D: rank of tensors must be at least 1"
      | _ :: inner =>
          if forallb (fun u => bool_decide (tail (shape u) = inner /\ shape u <> [])) tensors
          then Ok {| shape := sum_list (map (fun u => hd 0 (shape u)) tensors) :: inner;
                     values := flat_map values tensors |}
          else Throw "Error in concat: all tensors must have the same shape outside axis 0"
      end
  end.

(** *** Layers models *)

Inductive Activation : Type := relu | softmax.

(** The layer configurations the component passes to [tf.layers]. *)
Inductive Layer : Type :=
  | conv2d (inputShape : option (list nat)) (filters kernelSize : nat) (activation : Activation)
  | maxPool2d (poolSize : nat)
  | flatten
  | dense (units : nat) (activation : Activation)
  | dropout (rate : Q).

Inductive Optimizer : Type := adam (learningRate : Q).

Record CompileArgs : Type := mkCompileArgs
  { optimizer : Optimizer; loss : string; metrics : list string }.

(** The trainable parameters of a model are opaque: either the values the
    layer initialisers gave them, or what a run of the optimiser left. *)
Inductive Weights : Type :=
  | Initialized
  | Fitted (parameters : list Q).

Record LayersModel : Type := mkLayersModel
  { layers : list Layer; compiled : option CompileArgs; weights : Weights }.

(** [tf.sequential()], [m.add(layer)] and [m.compile(args)]. *)
Definition sequential : LayersModel :=
  {| layers := []; compiled := None; weights := Initialized |}.

Definition addLayer (l : Layer) (m : LayersModel) : LayersModel :=
  {| layers := layers m ++ [l]; compiled := compiled m; weights := weights m |}.

Definition compile (args : CompileArgs) (m : LayersModel) : LayersModel :=
  {| layers := layers m; compiled := Some args; weights := weights m |}.

(** The input shape (without the batch axis) the first layer declares. *)
Definition inputShapeOf (m : LayersModel) : option (list nat) :=
  match layers m with
  | conv2d (Some s) _ _ _ :: _ => Some s
  | _ => None
  end.

(** The width of the output of a model that ends in a dense layer. *)
Definition outputWidth (m : LayersModel) : nat :=
  match last (layers m) with
  | Some (dense units _) => units
  | _ => 0
  end.

(** What the numerical part of one call of [fit] does: it runs to the end,
    or it throws on the way; either way it leaves parameters behind. *)
Inductive FitRun : Type :=
  | FitCompletes (parameters : list Q)
  | FitThrows (parameters : list Q) (message : string).

(** What is outside the component: the forward pass of a model on an input
    (the data of its output tensor) and the optimiser run of [fit]. *)
Record Backend : Type := mkBackend
  { forward : LayersModel -> Tensor -> Exc (list number);
    optimise : LayersModel -> Tensor -> Tensor -> FitRun }.

(** [m.fit(X, Y, ...)]: the model must be compiled and the shapes of the
    inputs and the targets must match the model, otherwise [fit] throws
    before it touches the parameters.  The result is the model as the call
    leaves it and whether the call threw.  The texts of the messages of the
    checks are placeholders. *)
Definition fit (backend : Backend) (m : LayersModel) (X Y : Tensor)
    : LayersModel * Exc unit :=
  match compiled m with
  | None => (m, Throw "The model needs to be compiled before being used.")
  | Some _ =>
      if negb (bool_decide (Some (tail (shape X)) = inputShapeOf m /\ shape X <> []))
      then (m, Throw "Error when checking input: unexpected input shape")
      else if negb (bool_decide (shape Y = [hd 0 (shape X); outputWidth m]))
      then (m, Throw "Error when checking target: unexpected target shape")
      else
        match optimise backend m X Y with
        | FitCompletes w =>
            ({| layers := layers m; compiled := compiled m; weights := Fitted w |}, Ok ())
        | FitThrows w msg =>
            ({| layers := layers m; compiled := compiled m; weights := Fitted w |}, Throw msg)
        end
  end.

(** What [model.save] writes and [tf.loadLayersModel] reads: the topology
    and the parameters.  The compile arguments are not part of it. *)
Record ModelArtifacts : Type := mkModelArtifacts
  { modelTopology : list Layer; weightData : Weights }.

Definition artifactsOf (m : LayersModel) : ModelArtifacts :=
  {| modelTopology := layers m; weightData := weights m |}.

Definition modelOf (a : ModelArtifacts) : LayersModel :=
  {| layers := modelTopology a; compiled := None; weights := weightData a |}.

End tf.

Import tf.

(** ** The state of the component *)

(** The values that can sit in, or be read from, the [examples] object. *)
Inductive Value : Type :=
  | VUndefined
  | VNumber (x : number)
  | VString (s : string)
  | VBuiltin (text : string).

(** The properties every plain object inherits from [Object.prototype],
    each with the text that string conversion gives for it. *)
Definition nativeFunction (name : string) : string :=
  "function " +:+ name +:+ "() { [native code] }".

Definition objectPrototype (key : string) : option string :=
  if bool_decide (key = "__proto__") then Some "[object Object]"
  else if bool_decide (key = "constructor") then Some (nativeFunction "Object")
  else if bool_decide (key ∈ ["hasOwnProperty"; "isPrototypeOf";
                              "propertyIsEnumerable"; "toLocaleString"; "toString";
                              "valueOf"; "__defineGetter__"; "__defineSetter__";
                              "__lookupGetter__"; "__lookupSetter__"])
  then Some (nativeFunction key)
  else None.

(** [obj[key]] on a plain object: the own property, else the inherited one,
    else [undefined]. *)
Definition getProp (obj : gmap string Value) (key : string) : Value :=
  match obj !! key with
  | Some v => v
  | None =>
      match objectPrototype key with
      | Some text => VBuiltin text
      | None => VUndefined
      end
  end.

Definition truthy (v : Value) : bool :=
  match v with
  | VUndefined => false
  | VNumber NaN => false
  | VNumber (Fin q) => negb (Qeq_bool q 0)
  | VNumber _ => true
  | VString s => negb (bool_decide (s = ""))
  | VBuiltin _ => true
  end.

(** [v || d] *)
Definition orElse (v d : Value) : Value := if truthy v then v else d.

(** [v + 1]: addition on numbers, concatenation otherwise. *)
Definition plusOne (v : Value) : Value :=
  match v with
  | VUndefined => VNumber NaN
  | VNumber x => VNumber (add x (Fin 1))
  | VString s => VString (s +:+ "1")
  | VBuiltin text => VString (text +:+ "1")
  end.

Record Prediction : Type := mkPrediction
  { label : option string; probs : list number }.

Record Dataset : Type := mkDataset { xs : list Tensor; ys : list Tensor }.

(** What [JSON.parse] makes of a stored text.  Arrays with an item that is
    not a string are outside the model: [loadModel] would install them as
    they are, and the label list is a list of strings here. *)
Inductive Json : Type :=
  | NotAnArray
  | StringArray (items : list string).

(** A text kept in [localStorage], identified by what [JSON.parse] does
    with it. *)
Inductive StoredText : Type :=
  | EmptyText
  | Unparsable
  | Parses (j : Json).

(** The brush: "black" draws, "white" erases. *)
Inductive BrushColor : Type := black | white.

Record State : Type := mkState
  { brushColor : BrushColor;
    labels : list string;
    currentLabel : option string;
    examples : gmap string Value;
    model : option LayersModel;
    status : string;
    prediction : option Prediction;
    datasetRef : Dataset;
    canvasRef : option Canvas;
    (* the two stores behind "indexeddb://sketch-learner-model" and
       localStorage["sketch-learner-labels"] *)
    savedModel : option ModelArtifacts;
    savedLabels : option StoredText }.

Definition setBrushColor (v : BrushColor) (st : State) : State :=
  mkState v (labels st) (currentLabel st) (examples st) (model st) (status st)
          (prediction st) (datasetRef st) (canvasRef st) (savedModel st)
          (savedLabels st).
Definition setLabels (v : list string) (st : State) : State :=
  mkState (brushColor st) v (currentLabel st) (examples st) (model st)
          (status st) (prediction st) (datasetRef st) (canvasRef st)
          (savedModel st) (savedLabels st).
Definition setCurrentLabel (v : option string) (st : State) : State :=
  mkState (brushColor st) (labels st) v (examples st) (model st) (status st)
          (prediction st) (datasetRef st) (canvasRef st) (savedModel st)
          (savedLabels st).
Definition setExamples (f : gmap string Value -> gmap string Value) (st : State) : State :=
  mkState (brushColor st) (labels st) (currentLabel st) (f (examples st))
          (model st) (status st) (prediction st) (datasetRef st)
          (canvasRef st) (savedModel st) (savedLabels st).
Definition setModel (v : option LayersModel) (st : State) : State :=
  mkState (brushColor st) (labels st) (currentLabel st) (examples st) v
          (status st) (prediction st) (datasetRef st) (canvasRef st)
          (savedModel st) (savedLabels st).
Definition setStatus (v : string) (st : State) : State :=
  mkState (brushColor st) (labels st) (currentLabel st) (examples st)
          (model st) v (prediction st) (datasetRef st) (canvasRef st)
          (savedModel st) (savedLabels st).
Definition setPrediction (v : option Prediction) (st : State) : State :=
  mkState (brushColor st) (labels st) (currentLabel st) (examples st)
          (model st) (status st) v (datasetRef st) (canvasRef st)
          (savedModel st) (savedLabels st).
Definition setDataset (v : Dataset) (st : State) : State :=
  mkState (brushColor st) (labels st) (currentLabel st) (examples st)
          (model st) (status st) (prediction st) v (canvasRef st)
          (savedModel st) (savedLabels st).
Definition setCanvas (v : option Canvas) (st : State) : State :=
  mkState (brushColor st) (labels st) (currentLabel st) (examples st)
          (model st) (status st) (prediction st) (datasetRef st) v
          (savedModel st) (savedLabels st).
Definition setSavedModel (v : option ModelArtifacts) (st : State) : State :=
  mkState (brushColor st) (labels st) (currentLabel st) (examples st)
          (model st) (status st) (prediction st) (datasetRef st)
          (canvasRef st) v (savedLabels st).
Definition setSavedLabels (v : option StoredText) (st : State) : State :=
  mkState (brushColor st) (labels st) (currentLabel st) (examples st)
          (model st) (status st) (prediction st) (datasetRef st)
          (canvasRef st) (savedModel st) v.

(** *** Handler bodies: state changes that may throw

    A [try] block is a computation that threads the state and may throw;
    what it did to the state before it threw stays done. *)
Definition Eff (A : Type) : Type := State -> State * Exc A.

#[global] Instance Eff_ret : MRet Eff := fun A a st => (st, Ok a).
#[global] Instance Eff_bind : MBind Eff := fun A B k e st =>
  match e st with
  | (st', Ok a) => k a st'
  | (st', Throw msg) => (st', Throw msg)
  end.

Definition throw {A : Type} (msg : string) : Eff A := fun st => (st, Throw msg).
Definition liftExc {A : Type} (e : Exc A) : Eff A := fun st => (st, e).
Definition update (f : State -> State) : Eff unit := fun st => (f st, Ok ()).

(** [try { body } catch (err) { handler(err.message) }] *)
Definition tryCatch (body : Eff unit) (handler : string -> State -> State)
    (st : State) : State :=
  match body st with
  | (st', Ok _) => st'
  | (st', Throw msg) => handler msg st'
  end.

(** ** The handlers of the component *)

Definition imageSize : nat := 28.

(** [ctx.fillStyle = "white"; ctx.fillRect(0, 0, canvas.width, canvas.height)]
    with the compositing mode the context is in: under "source-over" every
    pixel becomes opaque white, under "destination-out" the opaque fill
    erases what is there and every pixel becomes transparent, with all four
    bytes 0.  The rectangle is in the units of the context, which the mount
    effect scales by the device pixel ratio; the ratio is taken to be at
    least 1, so that the rectangle covers the canvas. *)
Definition fillWhite (c : Canvas) : Canvas :=
  {| width := width c; height := height c;
     rgba := repeat (match globalCompositeOperation c with
                     | source_over => xff
                     | destination_out => x00
                     end) (4 * (height c * width c));
     globalCompositeOperation := globalCompositeOperation c |}.

Definition clearCanvasEff : Eff unit := fun st =>
  match canvasRef st with
  | None => (st, Throw "Cannot set properties of null")
  | Some canvas => (setPrediction None (setCanvas (Some (fillWhite canvas)) st), Ok ())
  end.

(** The Clear button: nothing catches the exception, and nothing was done
    before it. *)
Definition clearCanvas (st : State) : State := fst (clearCanvasEff st).

Definition canvasToTensor (canvasRef : option Canvas) : Exc Tensor :=
  match canvasRef with
  | None => Throw "Canvas not ready"
  | Some canvas =>
      let img := divScalar (toFloat (fromPixels canvas 1)) (Fin 255) in
      resized ← resizeBilinear img (imageSize, imageSize);
      let batched := expandDims0 resized in
      Ok batched
  end.

Definition labelIndex (labels : list string) (l : option string) : Z :=
  match l with
  | None => (-1)%Z
  | Some s => indexOf String.eqb labels s
  end.

Definition push (x y : Tensor) (d : Dataset) : Dataset :=
  {| xs := xs d ++ [x]; ys := ys d ++ [y] |}.

Definition addExample (st : State) : State :=
  tryCatch
    (x ← liftExc (canvasToTensor (canvasRef st));
     let labelIdx := labelIndex (labels st) (currentLabel st) in
     if (labelIdx =? -1)%Z
     then throw ("Label " +:+ dq +:+ showStr (currentLabel st) +:+ dq +:+ " not found")
     else
       row ← liftExc (oneHot labelIdx (length (labels st)));
       let y := expandDims0 row in
       let key := showStr (currentLabel st) in
       _ ← update (fun s => setDataset (push x y (datasetRef s)) s);
       _ ← update (setExamples (fun prev =>
               <[key := plusOne (orElse (getProp prev key) (VNumber (Fin 0)))]> prev));
       _ ← update (setStatus ("Added example for " +:+ dq +:+ showStr (currentLabel st) +:+ dq));
       clearCanvasEff)
    (fun msg => setStatus ("Failed to add example: " +:+ msg))
    st.

(** The layer constructors record the configuration they are given. *)
Definition buildModel (numClasses : nat) : LayersModel :=
  let m := sequential in
  let m := addLayer (conv2d (Some [imageSize; imageSize; 1]) 16 3 relu) m in
  let m := addLayer (maxPool2d 2) m in
  let m := addLayer (conv2d None 32 3 relu) m in
  let m := addLayer (maxPool2d 2) m in
  let m := addLayer flatten m in
  let m := addLayer (dense 64 relu) m in
  let m := addLayer (dropout (25 # 100)) m in
  let m := addLayer (dense numClasses softmax) m in
  compile {| optimizer := adam (1 # 1000); loss := "categoricalCrossentropy";
             metrics := ["accuracy"] |} m.

(** [await m.fit(X, Y, ...)] on the model that [setModel(m)] has just made
    the live one: the live model is the object that [fit] works on.  The
    status lines of [onEpochEnd] are each overwritten before the handler
    ends and are left out. *)
Definition fitLive (backend : Backend) (m : LayersModel) (X Y : Tensor) : Eff unit :=
  fun st =>
    let '(m', outcome) := fit backend m X Y in
    (setModel (Some m') st, outcome).

Definition train (backend : Backend) (st : State) : State :=
  let '{| xs := xs; ys := ys |} := datasetRef st in
  if length xs <? length (labels st)
  then setStatus ("Need at least 1 example per class (" +:+
                  showNat (length (labels st)) +:+ " total)") st
  else
    tryCatch
      (X ← liftExc (concat0 xs);
       Y ← liftExc (concat0 ys);
       let m := buildModel (length (labels st)) in
       _ ← update (setModel (Some m));
       _ ← update (setStatus "Training model...");
       _ ← fitLive backend m X Y;
       update (setStatus "Training complete!"))
      (fun msg => setStatus ("Training failed: " +:+ msg))
      (setStatus "Preparing tensors..." st).

Definition predict (backend : Backend) (st : State) : State :=
  match model st with
  | None => setStatus "Train (or load) a model first" st
  | Some m =>
      tryCatch
        (x ← liftExc (canvasToTensor (canvasRef st));
         arr ← liftExc (forward backend m x);
         let maxIdx := indexOf strictEq arr (Math_max arr) in
         update (setPrediction (Some {| label := at_ (labels st) maxIdx; probs := arr |})))
        (fun msg => setStatus ("Prediction failed: " +:+ msg))
        st
  end.

(** Whether the two writes of [saveModel] go through: [Some msg] is the
    message of the error the store throws. *)
Record StoreFaults : Type := mkStoreFaults
  { modelWrite : option string; labelsWrite : option string }.

Definition noFaults : StoreFaults := {| modelWrite := None; labelsWrite := None |}.

Definition write (fault : option string) (f : State -> State) : Eff unit :=
  match fault with
  | Some msg => throw msg
  | None => update f
  end.

Definition saveModel (faults : StoreFaults) (st : State) : State :=
  match model st with
  | None => setStatus "No trained model to save" st
  | Some m =>
      tryCatch
        (_ ← write (modelWrite faults) (setSavedModel (Some (artifactsOf m)));
         _ ← write (labelsWrite faults)
               (setSavedLabels (Some (Parses (StringArray (labels st)))));
         update (setStatus "Model saved to IndexedDB"))
        (fun msg => setStatus ("Save failed: " +:+ msg))
        st
  end.

(** [JSON.parse(localStorage.getItem("sketch-learner-labels") || "null")] *)
Definition parseSavedLabels (item : option StoredText) : Exc Json :=
  match item with
  | None | Some EmptyText => Ok NotAnArray
  | Some Unparsable => Throw "Unexpected token in JSON"
  | Some (Parses j) => Ok j
  end.

Definition loadModel (st : State) : State :=
  tryCatch
    (m ← liftExc (match savedModel st with
                  | None => Throw "Cannot find model in IndexedDB"
                  | Some a => Ok (modelOf a)
                  end);
     _ ← update (setModel (Some m));
     savedLabels ← liftExc (parseSavedLabels (savedLabels st));
     _ ← match savedLabels with
         | StringArray (first :: rest) =>
             _ ← update (setLabels (first :: rest));
             update (setCurrentLabel (Some first))
         | _ => mret ()
         end;
     update (setStatus "Model loaded from IndexedDB"))
    (fun _ => setStatus "No saved model found")
    st.

(** [addLabel]: the argument is what [prompt] returned, [None] for null. *)
Definition addLabel (newLabel : option string) (st : State) : State :=
  match newLabel with
  | Some l =>
      if negb (bool_decide (l = "")) && negb (bool_decide (l ∈ labels st))
      then setCurrentLabel (Some l) (setLabels (labels st ++ [l]) st)
      else st
  | None => st
  end.

Definition removeLabel (st : State) : State :=
  if length (labels st) <=? 1 then st
  else
    let updatedLabels :=
      filter (fun l => Some l ≠ currentLabel st) (labels st) in
    setCurrentLabel (head updatedLabels) (setLabels updatedLabels st).

(** The <select> of the current label. *)
Definition selectLabel (value : string) (st : State) : State :=
  setCurrentLabel (Some value) st.

(** The defaults of [useState] and [useRef], for a page whose canvas and
    stores are given. *)
Definition initialState (canvas : Canvas) (idb : option ModelArtifacts)
    (ls : option StoredText) : State :=
  {| brushColor := black;
     labels := ["circle"; "square"];
     currentLabel := Some "circle";
     examples := ∅;
     model := None;
     status := "Ready";
     prediction := None;
     datasetRef := {| xs := []; ys := [] |};
     canvasRef := Some canvas;
     savedModel := idb;
     savedLabels := ls |}.

(** [canvas.getContext("2d")] for the canvas that the effect gives its
    size: assigning the size puts the context in its default state. *)
Definition getContext (c : Canvas) : Canvas :=
  {| width := width c; height := height c; rgba := rgba c;
     globalCompositeOperation := source_over |}.

(** The effect that runs once after the first render: it paints the canvas
    white and calls [loadModel]. *)
Definition mount (canvas : Canvas) (idb : option ModelArtifacts)
    (ls : option StoredText) : State :=
  loadModel (initialState (fillWhite (getContext canvas)) idb ls).

(** ** Runs of the component *)

Inductive Action : Type :=
  | Draw (pixels : list byte)
  | ClickClear
  | ClickAddExample
  | ClickTrain (backend : Backend)
  | ClickPredict (backend : Backend)
  | ClickSave (faults : StoreFaults)
  | ClickLoad
  | ClickAddLabel (answer : option string)
  | ClickRemoveLabel
  | Select (value : string)
  | ClickBrush (color : BrushColor).

(** A stroke, from [startDrawing] to [stopDrawing]: [startDrawing] sets the
    compositing mode by the brush, and the strokes leave some pixel buffer
    of the same size on the canvas. *)
Definition draw (pixels : list byte) (st : State) : State :=
  match canvasRef st with
  | Some canvas =>
      setCanvas (Some {| width := width canvas; height := height canvas; rgba := pixels;
                         globalCompositeOperation :=
                           match brushColor st with
                           | white => destination_out
                           | black => source_over
                           end |}) st
  | None => st
  end.

Definition step (a : Action) (st : State) : State :=
  match a with
  | Draw pixels => draw pixels st
  | ClickClear => clearCanvas st
  | ClickAddExample => addExample st
  | ClickTrain backend => train backend st
  | ClickPredict backend => predict backend st
  | ClickSave faults => saveModel faults st
  | ClickLoad => loadModel st
  | ClickAddLabel answer => addLabel answer st
  | ClickRemoveLabel => removeLabel st
  | Select value => selectLabel value st
  | ClickBrush color => setBrushColor color st
  end.

(** What the page lets the user do: a stroke keeps the size of the pixel
    buffer, and the <select> offers the current labels only. *)
Definition enabled (a : Action) (st : State) : Prop :=
  match a with
  | Draw pixels =>
      match canvasRef st with
      | Some canvas => length pixels = length (rgba canvas)
      | None => False
      end
  | Select value => value ∈ labels st
  | _ => True
  end.

Definition run (actions : list Action) (st : State) : State :=
  foldl (fun s a => step a s) st actions.

Fixpoint enabledAll (actions : list Action) (st : State) : Prop :=
  match actions with
  | [] => True
  | a :: rest => enabled a st /\ enabledAll rest (step a st)
  end.

Inductive reachable : State -> Prop :=
  | reachable_mount canvas :
      wellFormed canvas -> reachable (mount canvas None None)
  | reachable_step a st :
      reachable st -> enabled a st -> reachable (step a st).

(** ** Properties named by the specification *)

(** A tensor entry that is a finite number between 0 and 1. *)
Definition unitInterval (v : number) : Prop :=
  exists q, v = Fin q /\ (0 <= q <= 1)%Q.

(** The count the page shows for a label: [examples[label] || 0]. *)
Definition labelCount (examples : gmap string Value) (l : string) : Value :=
  orElse (getProp examples l) (VNumber (Fin 0)).

(** The invariant of the label set: no duplicates, at least one label, and
    the index [indexOf] gives for a label is its position. *)
Definition LabelSetInvariant (ls : list string) : Prop :=
  NoDup ls /\ ls <> [] /\
  forall (i : nat) (l : string), ls !! i = Some l -> indexOf String.eqb ls l = Z.of_nat i.

(** The label list kept in [localStorage], when there is one, has no
    duplicates: it is a label set that [saveModel] wrote. *)
Definition StoredLabelsInvariant (item : option StoredText) : Prop :=
  forall items, item = Some (Parses (StringArray items)) -> NoDup items.

Definition Invariant (st : State) : Prop :=
  LabelSetInvariant (labels st) /\ StoredLabelsInvariant (savedLabels st).

(** Position [i] holds the largest of the entries [qs]. *)
Definition maximumAt (qs : list Q) (i : nat) : Prop :=
  exists qi, qs !! i = Some qi /\ forall j qj, qs !! j = Some qj -> (qj <= qi)%Q.

(** Position [i] is the only one that holds the largest entry. *)
Definition uniqueMaximumAt (qs : list Q) (i : nat) : Prop :=
  exists qi, qs !! i = Some qi /\
    forall j qj, j <> i -> qs !! j = Some qj -> (qj < qi)%Q.

(** Positions [i < j] both hold the largest entry, and no position before
    [i] does. *)
Definition tiedMaximumAt (qs : list Q) (i j : nat) : Prop :=
  i < j /\ maximumAt qs i /\ maximumAt qs j /\
  exists qi, qs !! i = Some qi /\
    forall k qk, k < i -> qs !! k = Some qk -> (qk < qi)%Q.

(** ** Sample pages, used to run the handlers *)

Module Sample.

(** A canvas of 2 by 2 pixels. *)
Definition canvas : Canvas :=
  {| width := 2; height := 2; rgba := repeat xff 16;
     globalCompositeOperation := source_over |}.

(** A 3 by 2 canvas with a black, a white and a half-red column. *)
Definition stripes : Canvas :=
  {| width := 3; height := 2;
     rgba := [x00; x00; x00; xff;  xff; xff; xff; xff;  x80; x00; x00; xff;
              x00; x00; x00; xff;  xff; xff; xff; xff;  x80; x00; x00; xff];
     globalCompositeOperation := source_over |}.

(** A backend whose optimiser always completes and whose forward pass puts
    most of the probability on the last of three classes. *)
Definition backend : Backend :=
  {| forward := fun _ _ => Ok [Fin (1 # 10); Fin (2 # 10); Fin (7 # 10)];
     optimise := fun _ _ _ => FitCompletes [] |}.

(** A forward pass with a tie between the classes 1 and 2. *)
Definition tieBackend : Backend :=
  {| forward := fun _ _ => Ok [Fin (2 # 10); Fin (4 # 10); Fin (4 # 10)];
     optimise := fun _ _ _ => FitCompletes [] |}.

Definition fresh : State := mount canvas None None.

(** Three examples of "circle", then a first training run. *)
Definition trained : State :=
  run [ClickAddExample; ClickAddExample; ClickAddExample; ClickTrain backend] fresh.

(** ... then a third label is added: the data set still has targets of
    width 2. *)
Definition trainedThenLabelAdded : State :=
  step (ClickAddLabel (Some "triangle")) trained.

(** A third label first, three examples of it, and only then a training
    run: the model has three outputs.  Removing the label afterwards leaves
    two labels. *)
Definition threeClasses : State :=
  run [ClickAddLabel (Some "triangle");
       ClickAddExample; ClickAddExample; ClickAddExample;
       ClickTrain backend] fresh.

Definition threeClassesLabelRemoved : State :=
  step ClickRemoveLabel threeClasses.

(** Examples recorded while the label set had two and then three labels:
    the targets have different widths. *)
Definition mixedTargets : State :=
  run [ClickAddExample; ClickAddExample;
       ClickAddLabel (Some "triangle"); ClickAddExample] trained.

(** A label that is also the name of an inherited property. *)
Definition constructorLabel : State :=
  step (ClickAddLabel (Some "constructor")) fresh.

(** The batch that [tf.concat] makes of a list of tensors, when it makes
    one. *)
Definition batch (tensors : list Tensor) : Tensor :=
  match concat0 tensors with
  | Ok t => t
  | Throw _ => {| shape := []; values := [] |}
  end.

End Sample.

(** ** Further properties of the page *)

(** The canvas is mounted and its pixel buffer has the size of the canvas. *)
Definition CanvasReady (st : State) : Prop :=
  exists canvas, canvasRef st = Some canvas /\ wellFormed canvas.

(** The current label is one of the labels. *)
Definition CurrentLabelKnown (st : State) : Prop :=
  exists l, currentLabel st = Some l /\ l ∈ labels st.

(** An input of the data set: what [canvasToTensor] makes. *)
Definition imageTensor (x : Tensor) : Prop :=
  shape x = [1; 28; 28; 1] /\ length (values x) = 784 /\ Forall unitInterval (values x).

(** A target of the data set: the one-hot row of some position [k] among
    [w] classes. *)
Definition oneHotTarget (y : Tensor) : Prop :=
  exists w k, k < w /\ y = expandDims0 (oneHotVector (Z.of_nat k) w).

(** The width of a target of shape [1, w]. *)
Definition targetWidth (y : Tensor) : nat := nth 1 (shape y) 0.

Definition DatasetInvariant (d : Dataset) : Prop :=
  length (xs d) = length (ys d) /\
  Forall imageTensor (xs d) /\ Forall oneHotTarget (ys d).

(** The model as an optimiser run leaves it. *)
Definition withWeights (m : LayersModel) (w : list Q) : LayersModel :=
  {| layers := layers m; compiled := compiled m; weights := Fitted w |}.

(** The red byte of pixel [i] of a canvas. *)
Definition redAt (c : Canvas) (i : nat) : Z := byteAt (rgba c) (i * 4).

(** What holds of the page in every state it can reach. *)
Definition PageInvariant (st : State) : Prop :=
  Invariant st /\ CanvasReady st /\ CurrentLabelKnown st /\
  DatasetInvariant (datasetRef st).


(** The number every entry of the tensor of a canvas has after a fill. *)
Definition blank (op : CompositeOperation) : Q :=
  match op with
  | source_over => 1
  | destination_out => 0
  end.

(** A tensor entry that is the finite number [c]. *)
Definition isNumber (c : Q) (v : number) : Prop := exists q, v = Fin q /\ (q == c)%Q.

Module Pages.

(** A canvas of 4 by 4 pixels painted black all over, and one of the same
    size erased all over: its pixels are transparent. *)
Definition inked : Canvas :=
  {| width := 4; height := 4;
     rgba := flat_map (fun _ => [x00; x00; x00; xff]) (seq 0 16);
     globalCompositeOperation := source_over |}.

Definition erased : Canvas :=
  {| width := 4; height := 4; rgba := repeat x00 64;
     globalCompositeOperation := destination_out |}.

End Pages.


(** ** Number formatting and the epoch status line *)

(** [Number.prototype.toFixed] works on the exact value of the number.
    For a value [x >= 0] below 10^21: the integer [n] for which
    [n / 10^f - x] is as close to zero as possible, the larger one when
    there are two. *)
Definition fixedInteger (x : Q) (f : nat) : Z :=
  Qfloor (x * inject_Z (10 ^ Z.of_nat f) + (1 # 2))%Q.

Fixpoint zeros (n : nat) : string :=
  match n with
  | 0 => ""
  | S n' => "0" +:+ zeros n'
  end.

(** The decimal digits of [n], padded with zeros to more than [f] digits,
    with a point before the last [f] of them. *)
Definition digitsWithPoint (n : Z) (f : nat) : string :=
  let m := showNat (Z.to_nat n) in
  if f =? 0 then m
  else
    let k := String.length m in
    let m := if k <=? f then zeros (f + 1 - k) +:+ m else m in
    let k := if k <=? f then f + 1 else k in
    String.substring 0 (k - f) m +:+ "." +:+ String.substring (k - f) f m.

(** [x.toFixed(f)] for [f] from 0 to 100.  For magnitudes of 10^21 and
    more the result is that of [Number.prototype.toString], which is taken
    as given. *)
Definition toFixed (numberToString : Q -> string) (x : number) (f : nat) : string :=
  match x with
  | NaN => "NaN"
  | PosInfinity => "Infinity"
  | NegInfinity => "-Infinity"
  | Fin q =>
      let s := if Qle_bool 0 q then "" else "-" in
      let x := if Qle_bool 0 q then q else (- q)%Q in
      let m := if Qle_bool (inject_Z (10 ^ 21)) x then numberToString x
               else digitsWithPoint (fixedInteger x f) f in
      s +:+ m
  end.

Module EpochLogs.

(** The [logs] object of an epoch: each property is a number, or it is
    missing or not a number ([None]). *)
Record t : Type := mk
  { loss : option number; acc : option number; accuracy : option number }.

End EpochLogs.

(** [formatEpochStatus(logs, epoch, totalEpochs = 10)] for [logs] an object
    or null/undefined ([None]), a non-negative integer [epoch], and
    [totalEpochs] a non-negative integer or left out ([None]); the integers
    are those a number holds exactly and prints in full. *)
Definition formatEpochStatus (numberToString : Q -> string)
    (logs : option EpochLogs.t) (epoch : nat) (totalEpochs : option nat) : string :=
  let totalEpochs := default 10 totalEpochs in
  let lossVal :=
    match logs with
    | Some l => EpochLogs.loss l
    | None => None
    end in
  let accVal :=
    match logs with
    | Some l =>
        match EpochLogs.acc l with
        | Some a => Some a
        | None => EpochLogs.accuracy l
        end
    | None => None
    end in
  let lossStr :=
    match lossVal with
    | Some x => toFixed numberToString x 4
    | None => "N/A"
    end in
  let accStr :=
    match accVal with
    | Some x => toFixed numberToString x 3
    | None => "N/A"
    end in
  "Epoch " +:+ showNat (epoch + 1) +:+ "/" +:+ showNat totalEpochs +:+
  " - loss: " +:+ lossStr +:+ " acc: " +:+ accStr.


(** ** Counting the examples *)

(** The count that a value of [examples] stands for, when it is a
    number. *)
Definition countValue (v : Value) : nat :=
  match v with
  | VNumber (Fin q) => Z.to_nat (Qfloor q)
  | _ => 0
  end.

(** The sum of the counts of all labels that have one. *)
Definition totalCount (examples : gmap string Value) : nat :=
  map_fold (fun _ v total => countValue v + total) 0 examples.

(** Every own property of [examples] is a positive whole number kept under
    a name that [Object.prototype] does not have. *)
Definition PlainCounts (examples : gmap string Value) : Prop :=
  forall k v, examples !! k = Some v ->
    objectPrototype k = None /\
    exists (q : Q) (n : nat), v = VNumber (Fin q) /\ (q == inject_Z (Z.of_nat n))%Q /\ 0 < n.

(** The counts are numbers and add up to the number of examples. *)
Definition CountsInvariant (st : State) : Prop :=
  PlainCounts (examples st) /\ totalCount (examples st) = length (xs (datasetRef st)).

(** ** What the page shows *)

(** The rows under "Training Examples": [examples[label] || 0] for every
    label. *)
Definition exampleRows (st : State) : list (string * Value) :=
  map (fun l => (l, labelCount (examples st) l)) (labels st).

(** [(x * 100).toFixed(1)] with a percent sign, for [x] an entry of
    [probs], or [undefined] ([None]), which multiplies to NaN. *)
Definition percentText (numberToString : Q -> string) (x : option number) : string :=
  toFixed numberToString (mul (default NaN x) (Fin 100)) 1 +:+ "%".

(** The prediction panel: nothing without a prediction; otherwise the
    predicted label and, for every label of the page, the entry of [probs]
    at the index of the label. *)
Definition predictionPanel (numberToString : Q -> string) (st : State)
  : option (option string * list (string * string)) :=
  match prediction st with
  | None => None
  | Some p =>
      Some (label p,
            imap (fun idx l => (l, percentText numberToString (probs p !! idx))) (labels st))
  end.


(** * Theorems *)

(** ** The preprocessor *)

Section Preprocessor.

Lemma length_flat_map_const {A B : Type} (f : A -> list B) (n : nat) (l : list A) :
  (forall a, In a l -> length (f a) = n) -> length (flat_map f l) = length l * n.
Proof.
  induction l as [|a l IH]; intros Hf; simpl; [reflexivity|].
  rewrite length_app, Hf by (left; reflexivity).
  rewrite IH by (intros b Hb; apply Hf; right; exact Hb). reflexivity.
Qed.

Lemma Forall_flat_map_intro {A B : Type} (P : B -> Prop) (f : A -> list B) (l : list A) :
  (forall a, In a l -> Forall P (f a)) -> Forall P (flat_map f l).
Proof.
  induction l as [|a l IH]; intros Hf; simpl; [constructor|].
  apply Forall_app; split; [apply Hf; left; reflexivity|].
  apply IH. intros b Hb. apply Hf. right. exact Hb.
Qed.

(** A linear interpolation between two entries of the unit interval stays
    in it. *)
Lemma lerp_unit (a b : number) (t : Q) :
  unitInterval a -> unitInterval b -> (0 <= t <= 1)%Q ->
  unitInterval (add a (mul (sub b a) (Fin t))).
Proof.
  intros (x & -> & Hx) (y & -> & Hy) Ht. simpl.
  eexists; split; [reflexivity|].
  split; nra.
Qed.

(** A read inside the buffer is an entry of the buffer, not NaN. *)
Lemma get_unit (xs : list number) (i : Z) :
  Forall unitInterval xs -> (0 <= i < Z.of_nat (length xs))%Z -> unitInterval (get xs i).
Proof.
  intros Hall Hi. unfold get, at_.
  destruct (Z.ltb_spec i 0) as [Hneg|_]; [lia|].
  destruct (xs !! Z.to_nat i) as [v|] eqn:Hv.
  - simpl. rewrite Forall_forall in Hall. apply Hall.
    eapply list_elem_of_lookup_2; eauto.
  - apply lookup_ge_None in Hv. lia.
Qed.

(** The source coordinates of an output coordinate lie inside the source
    image, and the interpolation weight lies between 0 and 1. *)
Lemma sourceCoord_bounds (old new r : nat) :
  0 < old -> r < new ->
  let '(lo, hi, frac) :=
    sourceCoord (inject_Z (Z.of_nat old) / inject_Z (Z.of_nat new))%Q old r in
  (0 <= lo < Z.of_nat old)%Z /\ (0 <= hi < Z.of_nat old)%Z /\ (0 <= frac <= 1)%Q.
Proof.
  intros Hold Hr. unfold sourceCoord.
  set (x := (inject_Z (Z.of_nat old) / inject_Z (Z.of_nat new) * inject_Z (Z.of_nat r))%Q).
  assert (Hx0 : (0 <= x)%Q).
  { unfold x. apply Qmult_le_0_compat.
    - apply Qle_shift_div_l.
      + change 0%Q with (inject_Z 0). rewrite <- Zlt_Qlt. lia.
      + rewrite Qmult_0_l. change 0%Q with (inject_Z 0). rewrite <- Zle_Qle. lia.
    - change 0%Q with (inject_Z 0). rewrite <- Zle_Qle. lia. }
  assert (Hx1 : (x < inject_Z (Z.of_nat old))%Q).
  { unfold x.
    assert (Hn : (0 < inject_Z (Z.of_nat new))%Q)
      by (change 0%Q with (inject_Z 0); rewrite <- Zlt_Qlt; lia).
    assert (Hrn : (inject_Z (Z.of_nat r) < inject_Z (Z.of_nat new))%Q)
      by (rewrite <- Zlt_Qlt; lia).
    assert (Ho : (0 < inject_Z (Z.of_nat old))%Q)
      by (change 0%Q with (inject_Z 0); rewrite <- Zlt_Qlt; lia).
    unfold Qdiv. rewrite <- Qmult_assoc.
    rewrite <- (Qmult_1_r (inject_Z (Z.of_nat old))) at 2.
    apply Qmult_lt_l; [exact Ho|].
    rewrite Qmult_comm. apply Qlt_shift_div_r; [exact Hn|].
    rewrite Qmult_1_l. exact Hrn. }
  assert (Hf0 : (0 <= Qfloor x)%Z).
  { change 0%Z with (Qfloor (inject_Z 0)). apply Qfloor_resp_le. exact Hx0. }
  assert (Hf1 : (Qfloor x < Z.of_nat old)%Z).
  { rewrite Zlt_Qlt. eapply Qle_lt_trans; [apply Qfloor_le|exact Hx1]. }
  assert (Hc0 : (0 <= Qceiling x)%Z).
  { change 0%Z with (Qceiling (inject_Z 0)). apply Qceiling_resp_le. exact Hx0. }
  rewrite Z.max_r by lia.
  repeat split; try lia.
  - pose proof (Qfloor_le x). lra.
  - pose proof (Qlt_floor x) as H. rewrite inject_Z_plus in H.
    change (inject_Z 1) with 1%Q in H. lra.
Qed.

Lemma resizeBilinear_unit (images : Tensor) (h w c newH newW : nat) :
  shape images = [h; w; c] -> 0 < h -> 0 < w ->
  length (values images) = h * w * c ->
  Forall unitInterval (values images) ->
  exists resized,
    resizeBilinear images (newH, newW) = Ok resized /\
    shape resized = [newH; newW; c] /\
    length (values resized) = newH * (newW * c) /\
    Forall unitInterval (values resized).
Proof.
  intros Hshape Hh Hw Hlen Hall. unfold resizeBilinear. rewrite Hshape.
  eexists; split; [reflexivity|]. cbn [shape values].
  split; [reflexivity|]. split.
  - rewrite (length_flat_map_const _ (newW * c)), length_seq; [reflexivity|].
    intros r _.
    match goal with |- context [sourceCoord ?q h r] => destruct (sourceCoord q h r) as [[? ?] ?] end.
    rewrite (length_flat_map_const _ c), length_seq; [reflexivity|].
    intros col _.
    match goal with |- context [sourceCoord ?q w col] => destruct (sourceCoord q w col) as [[? ?] ?] end.
    rewrite length_map, length_seq. reflexivity.
  - apply Forall_flat_map_intro. intros r Hr. apply in_seq in Hr.
    assert (Hrow := sourceCoord_bounds h newH r Hh (proj2 Hr)).
    match goal with |- context [sourceCoord ?q h r] =>
      destruct (sourceCoord q h r) as [[rlo rhi] rfrac] end.
    destruct Hrow as (Hrlo & Hrhi & Hrfrac).
    apply Forall_flat_map_intro. intros col Hcol. apply in_seq in Hcol.
    assert (Hc := sourceCoord_bounds w newW col Hw (proj2 Hcol)).
    match goal with |- context [sourceCoord ?q w col] =>
      destruct (sourceCoord q w col) as [[clo chi] cfrac] end.
    destruct Hc as (Hclo & Hchi & Hcfrac).
    apply Forall_forall. intros v Hv. apply list_elem_of_In, in_map_iff in Hv.
    destruct Hv as (d & <- & Hd). apply in_seq in Hd.
    assert (Hidx : forall a b : Z, (0 <= a < Z.of_nat h)%Z -> (0 <= b < Z.of_nat w)%Z ->
              (0 <= a * Z.of_nat (w * c) + b * Z.of_nat c + Z.of_nat d
                 < Z.of_nat (length (values images)))%Z).
    { intros a b Ha Hb. rewrite Hlen, !Nat2Z.inj_mul.
      assert (a * (Z.of_nat w * Z.of_nat c) <= (Z.of_nat h - 1) * (Z.of_nat w * Z.of_nat c))%Z
        by (apply Z.mul_le_mono_nonneg_r; nia).
      assert (b * Z.of_nat c <= (Z.of_nat w - 1) * Z.of_nat c)%Z
        by (apply Z.mul_le_mono_nonneg_r; lia).
      assert (0 <= a * (Z.of_nat w * Z.of_nat c))%Z by nia.
      assert (0 <= b * Z.of_nat c)%Z by nia.
      lia. }
    repeat apply lerp_unit; try assumption; apply get_unit; auto.
Qed.

(** After the division by 255 every entry is between 0 and 1. *)
Lemma fromPixels_scaled_unit (canvas : Canvas) :
  Forall unitInterval (values (divScalar (toFloat (fromPixels canvas 1)) (Fin 255))).
Proof.
  unfold divScalar, toFloat, fromPixels. cbn [values].
  apply Forall_forall. intros v Hv.
  apply list_elem_of_In, in_map_iff in Hv. destruct Hv as (u & <- & Hu).
  apply in_flat_map in Hu. destruct Hu as (i & _ & Hu).
  apply in_map_iff in Hu. destruct Hu as (ch & <- & _).
  assert (Hb : (0 <= byteAt (rgba canvas) (i * 4 + ch) <= 255)%Z).
  { unfold byteAt. destruct (rgba canvas !! (i * 4 + ch)) as [b|]; [|lia].
    pose proof (Byte.to_N_bounded b). lia. }
  simpl. eexists; split; [reflexivity|].
  destruct Hb as [Hb0 Hb1]. rewrite Zle_Qle in Hb0, Hb1.
  change (inject_Z 0) with 0%Q in Hb0. change (inject_Z 255) with 255%Q in Hb1.
  split.
  - apply Qle_shift_div_l; lra.
  - apply Qle_shift_div_r; lra.
Qed.

Lemma fromPixels_scaled_length (canvas : Canvas) :
  length (values (divScalar (toFloat (fromPixels canvas 1)) (Fin 255)))
  = height canvas * width canvas * 1.
Proof.
  unfold divScalar, toFloat, fromPixels. cbn [values].
  rewrite length_map, (length_flat_map_const _ 1), length_seq; [reflexivity|].
  intros; reflexivity.
Qed.

(** C2.  For every raster image with at least one pixel, whatever its
    height and width, [canvasToTensor] returns a tensor of shape
    (1, 28, 28, 1) whose 784 entries are finite numbers between 0 and 1.  It
    is the first channel of the pixels, divided by 255, resized bilinearly
    to 28 by 28, with a batch axis of size 1 in front. *)
Theorem canvasToTensor_shape_and_range (canvas : Canvas) :
  wellFormed canvas ->
  exists resized batched,
    resizeBilinear (divScalar (toFloat (fromPixels canvas 1)) (Fin 255)) (28, 28) = Ok resized /\
    batched = expandDims0 resized /\
    canvasToTensor (Some canvas) = Ok batched /\
    shape batched = [1; 28; 28; 1] /\
    length (values batched) = 1 * 28 * 28 * 1 /\
    Forall unitInterval (values batched).
Proof.
  intros (Hw & Hh & _).
  destruct (resizeBilinear_unit
              (divScalar (toFloat (fromPixels canvas 1)) (Fin 255))
              (height canvas) (width canvas) 1 28 28)
    as (resized & Hres & Hshape & Hlen & Hall); auto.
  - apply fromPixels_scaled_length.
  - apply fromPixels_scaled_unit.
  - exists resized, (expandDims0 resized).
    split; [exact Hres|]. split; [reflexivity|].
    split; [unfold canvasToTensor, imageSize; rewrite Hres; reflexivity|].
    split; [simpl; rewrite Hshape; reflexivity|].
    split; [exact Hlen | exact Hall].
Qed.

(** The model runs on the sample canvases. *)
Lemma canvasToTensor_shape_and_range_witness :
  wellFormed Sample.stripes /\
  exists resized batched,
    resizeBilinear (divScalar (toFloat (fromPixels Sample.stripes 1)) (Fin 255)) (28, 28)
      = Ok resized /\
    batched = expandDims0 resized /\
    canvasToTensor (Some Sample.stripes) = Ok batched /\
    shape batched = [1; 28; 28; 1] /\
    length (values batched) = 1 * 28 * 28 * 1 /\
    Forall unitInterval (values batched).
Proof.
  assert (H : wellFormed Sample.stripes) by (unfold wellFormed; simpl; lia).
  split; [exact H | exact (canvasToTensor_shape_and_range Sample.stripes H)].
Defined.

End Preprocessor.

(** ** Array search *)

Section IndexOf.

Context {A : Type} (eqb : A -> A -> bool).

Lemma indexOfFrom_none (arr : list A) (x : A) (i : Z) :
  (forall y, y ∈ arr -> eqb y x = false) -> indexOfFrom eqb arr x i = (-1)%Z.
Proof.
  revert i. induction arr as [|y rest IH]; intros i Hall; simpl; [reflexivity|].
  rewrite (Hall y) by left. apply IH. intros z Hz. apply Hall. right. exact Hz.
Qed.

Lemma indexOfFrom_first (arr : list A) (x : A) (i : Z) (k : nat) (y : A) :
  arr !! k = Some y -> eqb y x = true ->
  (forall j z, j < k -> arr !! j = Some z -> eqb z x = false) ->
  indexOfFrom eqb arr x i = (i + Z.of_nat k)%Z.
Proof.
  revert i k. induction arr as [|a rest IH]; intros i k Hk Hy Hbefore; [discriminate|].
  destruct k as [|k]; simpl in *.
  - injection Hk as ->. rewrite Hy. lia.
  - rewrite (Hbefore 0 a (Nat.lt_0_succ k) eq_refl).
    rewrite (IH (i + 1)%Z k Hk Hy); [lia|].
    intros j z Hj Hz. apply (Hbefore (S j) z); [lia | exact Hz].
Qed.

Lemma indexOfFrom_found (arr : list A) (x : A) (i : Z) :
  indexOfFrom eqb arr x i <> (-1)%Z -> (0 <= i)%Z ->
  exists k y, indexOfFrom eqb arr x i = (i + Z.of_nat k)%Z /\
    arr !! k = Some y /\ eqb y x = true /\
    forall j z, j < k -> arr !! j = Some z -> eqb z x = false.
Proof.
  revert i. induction arr as [|a rest IH]; intros i Hne Hi; simpl in *; [congruence|].
  destruct (eqb a x) eqn:Ha.
  - exists 0, a. repeat split; [lia | exact Ha | intros; lia].
  - destruct (IH (i + 1)%Z Hne ltac:(lia)) as (k & y & Heq & Hk & Hy & Hbefore).
    exists (S k), y. repeat split; [lia | exact Hk | exact Hy |].
    intros [|j] z Hj Hz; simpl in Hz; [congruence|].
    apply (Hbefore j z); [lia | exact Hz].
Qed.

Lemma indexOfFrom_hit (arr : list A) (x : A) (i : Z) (y : A) :
  (0 <= i)%Z -> y ∈ arr -> eqb y x = true -> indexOfFrom eqb arr x i <> (-1)%Z.
Proof.
  revert i. induction arr as [|a rest IH]; intros i Hi Hin Hy; [inversion Hin|].
  simpl. destruct (eqb a x) eqn:Ha; [lia|].
  apply IH; [lia | | exact Hy].
  inversion Hin; subst; [congruence | assumption].
Qed.

End IndexOf.

Lemma labelIndex_unknown (ls : list string) (l : option string) :
  (forall s, l = Some s -> s ∉ ls) -> labelIndex ls l = (-1)%Z.
Proof.
  intros Hnot. destruct l as [s|]; [|reflexivity]. simpl.
  apply indexOfFrom_none. intros y Hy. apply String.eqb_neq.
  intros ->. exact (Hnot s eq_refl Hy).
Qed.

Lemma labelIndex_known (ls : list string) (s : string) :
  s ∈ ls ->
  exists k, labelIndex ls (Some s) = Z.of_nat k /\ ls !! k = Some s /\
    forall j, j < k -> ls !! j <> Some s.
Proof.
  intros Hin. simpl. unfold indexOf.
  destruct (indexOfFrom_found String.eqb ls s 0) as (k & y & Heq & Hk & Hy & Hbefore).
  - apply (indexOfFrom_hit String.eqb ls s 0 s); [lia | exact Hin | apply String.eqb_refl].
  - lia.
  - apply String.eqb_eq in Hy. subst y. exists k. rewrite Heq.
    split; [lia|]. split; [exact Hk|].
    intros j Hj Hjs. specialize (Hbefore j s Hj Hjs). rewrite String.eqb_refl in Hbefore.
    discriminate.
Qed.

(** ** The data set accumulator *)

(** What [addExample] does once the canvas has given a tensor. *)
Lemma addExample_unfold (st : State) (x : Tensor) :
  canvasToTensor (canvasRef st) = Ok x ->
  addExample st =
    if (labelIndex (labels st) (currentLabel st) =? -1)%Z
    then setStatus ("Failed to add example: Label " +:+ dq +:+
                    showStr (currentLabel st) +:+ dq +:+ " not found") st
    else
      match oneHot (labelIndex (labels st) (currentLabel st)) (length (labels st)) with
      | Throw msg => setStatus ("Failed to add example: " +:+ msg) st
      | Ok row =>
          let y := expandDims0 row in
          let key := showStr (currentLabel st) in
          setPrediction None
            (setCanvas (option_map fillWhite (canvasRef st))
              (setStatus ("Added example for " +:+ dq +:+ showStr (currentLabel st) +:+ dq)
                (setExamples (fun prev => <[key := plusOne (labelCount prev key)]> prev)
                  (setDataset (push x y (datasetRef st)) st))))
      end.
Proof.
  intros Hx. unfold addExample, tryCatch, mbind, Eff_bind, liftExc. rewrite Hx.
  destruct (labelIndex (labels st) (currentLabel st) =? -1)%Z; [reflexivity|].
  destruct (oneHot (labelIndex (labels st) (currentLabel st)) (length (labels st)))
    as [row|msg]; [|reflexivity].
  unfold update, clearCanvasEff. cbn.
  destruct (canvasRef st) as [c|] eqn:Hc; [reflexivity|].
  simpl in Hx. discriminate.
Qed.

(** [tf.oneHot] gives the vector when there are at least two classes. *)
Lemma oneHot_ok (index : Z) (depth : nat) :
  2 <= depth -> oneHot index depth = Ok (oneHotVector index depth).
Proof.
  intros Hd. unfold oneHot.
  destruct (Nat.ltb_spec depth 2) as [Hlt|_]; [lia | reflexivity].
Qed.

Lemma oneHot_inv (index : Z) (depth : nat) (row : Tensor) :
  oneHot index depth = Ok row -> 2 <= depth /\ row = oneHotVector index depth.
Proof.
  unfold oneHot. destruct (Nat.ltb_spec depth 2) as [Hlt|Hge]; [discriminate|].
  intros [= <-]. split; [exact Hge | reflexivity].
Qed.

(** C6.  When the current label is not in the label set, [addExample]
    appends nothing to the data set and changes no count: it only sets the
    status line to a failure, which is the "not found" failure of the label
    whenever the canvas gave a tensor. *)
Theorem addExample_unknown_label (st : State) :
  (forall l, currentLabel st = Some l -> l ∉ labels st) ->
  datasetRef (addExample st) = datasetRef st /\
  examples (addExample st) = examples st /\
  (exists msg, addExample st = setStatus ("Failed to add example: " +:+ msg) st) /\
  (forall x, canvasToTensor (canvasRef st) = Ok x ->
     status (addExample st) =
       "Failed to add example: Label " +:+ dq +:+ showStr (currentLabel st) +:+ dq +:+
       " not found").
Proof.
  intros Hunknown. apply labelIndex_unknown in Hunknown.
  destruct (canvasToTensor (canvasRef st)) as [x|msg] eqn:Hx.
  - rewrite (addExample_unfold st x Hx), Hunknown. simpl.
    repeat split; eauto.
  - assert (Hadd : addExample st = setStatus ("Failed to add example: " +:+ msg) st).
    { unfold addExample, tryCatch, mbind, Eff_bind, liftExc. rewrite Hx. reflexivity. }
    rewrite Hadd. repeat split; eauto. intros x Hok. discriminate.
Qed.

Lemma addExample_unknown_label_witness :
  let st := selectLabel "star" Sample.fresh in
  datasetRef (addExample st) = datasetRef st /\
  examples (addExample st) = examples st /\
  status (addExample st) =
    "Failed to add example: Label " +:+ dq +:+ "star" +:+ dq +:+ " not found".
Proof.
  intros st.
  assert (Hunknown : forall l, currentLabel st = Some l -> l ∉ labels st).
  { intros l [= <-]. apply (bool_decide_unpack _). vm_compute. reflexivity. }
  destruct (addExample_unknown_label st Hunknown) as (Hd & He & _ & Hs).
  split; [exact Hd|]. split; [exact He|].
  destruct (canvasToTensor (canvasRef st)) as [x|msg] eqn:Hx.
  - exact (Hs x eq_refl).
  - vm_compute in Hx. discriminate.
Defined.

(** For a label of a label set of at least two labels, [addExample]
    appends one pair: the tensor of the canvas and the one-hot target of
    the label's first position, as wide as the label set.  It writes
    [count + 1] under the label, where [count] is what the page shows for
    the label, and leaves the other own properties of [examples] alone. *)
Lemma addExample_known_label (st : State) (l : string) (x : Tensor) :
  currentLabel st = Some l -> l ∈ labels st -> 2 <= length (labels st) ->
  canvasToTensor (canvasRef st) = Ok x ->
  exists k,
    labels st !! k = Some l /\ (forall j, j < k -> labels st !! j <> Some l) /\
    datasetRef (addExample st) =
      {| xs := xs (datasetRef st) ++ [x];
         ys := ys (datasetRef st) ++
               [{| shape := [1; length (labels st)];
                   values := map (fun j => if (Z.of_nat j =? Z.of_nat k)%Z
                                           then Fin 1 else Fin 0)
                                 (seq 0 (length (labels st))) |}] |} /\
    examples (addExample st) !! l = Some (plusOne (labelCount (examples st) l)) /\
    (forall l', l' <> l -> examples (addExample st) !! l' = examples st !! l') /\
    status (addExample st) = "Added example for " +:+ dq +:+ l +:+ dq.
Proof.
  intros Hcur Hin Htwo Hx.
  destruct (labelIndex_known (labels st) l Hin) as (k & Hidx & Hk & Hfirst).
  exists k. split; [exact Hk|]. split; [exact Hfirst|].
  rewrite (addExample_unfold st x Hx), Hcur, Hidx.
  destruct (Z.eqb_spec (Z.of_nat k) (-1)) as [Hneg|_]; [lia|].
  rewrite (oneHot_ok _ _ Htwo).
  cbn [datasetRef examples status setPrediction setCanvas setStatus setExamples
       setDataset showStr default].
  split; [reflexivity|]. split; [apply lookup_insert_eq|].
  split; [|reflexivity].
  intros l' Hne. apply lookup_insert_ne. intros Heq. apply Hne. symmetry. exact Heq.
Qed.

(** On a count that is a number, and for a label that is not the name of a
    property inherited from [Object.prototype], this is the count plus one,
    and the counts shown for the other labels do not change. *)
Lemma addExample_counts (st : State) (l : string) (x : Tensor) (n : Z) :
  currentLabel st = Some l -> l ∈ labels st -> 2 <= length (labels st) ->
  canvasToTensor (canvasRef st) = Ok x ->
  (0 <= n)%Z ->
  labelCount (examples st) l = VNumber (Fin (inject_Z n)) ->
  labelCount (examples (addExample st)) l = VNumber (Fin (inject_Z n + 1)%Q) /\
  forall l', l' <> l ->
    labelCount (examples (addExample st)) l' = labelCount (examples st) l'.
Proof.
  intros Hcur Hin Htwo Hx Hn Hcount.
  destruct (addExample_known_label st l x Hcur Hin Htwo Hx)
    as (k & _ & _ & _ & Hl & Hother & _).
  split.
  - unfold labelCount at 1. unfold getProp. rewrite Hl, Hcount. simpl.
    unfold orElse, truthy.
    destruct (Qeq_bool (inject_Z n + 1) 0) eqn:Hz; [|reflexivity].
    apply Qeq_bool_eq in Hz. rewrite Zle_Qle in Hn.
    change (inject_Z 0) with 0%Q in Hn. lra.
  - intros l' Hne. unfold labelCount, getProp. rewrite (Hother l' Hne). reflexivity.
Qed.

(** C7, on the label "constructor".  The label is in the label set of a
    reachable state and [addExample] succeeds for it and appends one pair,
    but the count of the label is not a number increased by one: what the
    page shows for the label was the inherited [Object] function, and
    becomes its text followed by the character 1. *)
Theorem addExample_inherited_property_count :
  let st := Sample.constructorLabel in
  reachable st /\
  currentLabel st = Some "constructor" /\ "constructor" ∈ labels st /\
  status (addExample st) = "Added example for " +:+ dq +:+ "constructor" +:+ dq /\
  length (xs (datasetRef (addExample st))) = S (length (xs (datasetRef st))) /\
  labelCount (examples st) "constructor" = VBuiltin "function Object() { [native code] }" /\
  labelCount (examples (addExample st)) "constructor"
    = VString "function Object() { [native code] }1" /\
  forall x, labelCount (examples (addExample st)) "constructor" <> VNumber x.
Proof.
  intros st. split.
  { apply (reachable_step (ClickAddLabel (Some "constructor"))); [|exact I].
    apply reachable_mount. unfold wellFormed. simpl. lia. }
  split; [reflexivity|].
  split; [apply (bool_decide_unpack _); vm_compute; reflexivity|].
  split; [vm_compute; reflexivity|].
  split; [vm_compute; reflexivity|].
  split; [vm_compute; reflexivity|].
  assert (H : labelCount (examples (addExample st)) "constructor"
              = VString "function Object() { [native code] }1")
    by (vm_compute; reflexivity).
  split; [exact H|]. intros x. rewrite H. discriminate.
Qed.

(** ** The model builder *)


(** ** The training controller *)

(** C5.  With fewer examples than labels, [train] only sets the status line
    to the "need at least one example per class" message: the live model,
    like everything else, is as before the call. *)
Theorem train_insufficient_data (backend : Backend) (st : State) :
  length (xs (datasetRef st)) < length (labels st) ->
  train backend st =
    setStatus ("Need at least 1 example per class (" +:+
               showNat (length (labels st)) +:+ " total)") st /\
  model (train backend st) = model st.
Proof.
  intros Hfew. unfold train. destruct (datasetRef st) as [xs0 ys0]. simpl in Hfew.
  apply Nat.ltb_lt in Hfew. rewrite Hfew. split; reflexivity.
Qed.

Lemma train_insufficient_data_witness :
  train Sample.backend Sample.fresh =
    setStatus "Need at least 1 example per class (2 total)" Sample.fresh /\
  model (train Sample.backend Sample.fresh) = model Sample.fresh.
Proof.
  apply (train_insufficient_data Sample.backend Sample.fresh).
  vm_compute. lia.
Defined.

Lemma reachable_run (actions : list Action) (st : State) :
  reachable st -> enabledAll actions st -> reachable (run actions st).
Proof.
  revert st. induction actions as [|a rest IH]; intros st Hst Hall; [exact Hst|].
  destruct Hall as [Ha Hrest]. apply (IH (step a st)); [|exact Hrest].
  apply reachable_step; assumption.
Qed.

Lemma reachable_fresh : reachable Sample.fresh.
Proof. apply reachable_mount. unfold wellFormed. simpl. lia. Qed.

(** What [train] does, following the count of the examples and the outcome
    of the two concatenations and of [fit]. *)
Lemma train_unfold (backend : Backend) (st : State) :
  train backend st =
    if length (xs (datasetRef st)) <? length (labels st)
    then setStatus ("Need at least 1 example per class (" +:+
                    showNat (length (labels st)) +:+ " total)") st
    else
      match concat0 (xs (datasetRef st)) with
      | Throw msg => setStatus ("Training failed: " +:+ msg) st
      | Ok X =>
          match concat0 (ys (datasetRef st)) with
          | Throw msg => setStatus ("Training failed: " +:+ msg) st
          | Ok Y =>
              match fit backend (buildModel (length (labels st))) X Y with
              | (m', Ok _) => setStatus "Training complete!" (setModel (Some m') st)
              | (m', Throw msg) =>
                  setStatus ("Training failed: " +:+ msg) (setModel (Some m') st)
              end
          end
      end.
Proof.
  unfold train. destruct (datasetRef st) as [xs0 ys0]. cbn [xs ys].
  destruct (length xs0 <? length (labels st)); [reflexivity|].
  unfold tryCatch, mbind, Eff_bind, liftExc, update, fitLive.
  destruct (concat0 xs0) as [X|msg]; [|reflexivity].
  destruct (concat0 ys0) as [Y|msg]; [|reflexivity].
  destruct (fit backend (buildModel (length (labels st))) X Y) as [m' [u|msg]];
    reflexivity.
Qed.

Lemma enough_examples (st : State) :
  length (labels st) <= length (xs (datasetRef st)) ->
  (length (xs (datasetRef st)) <? length (labels st)) = false.
Proof. intros H. apply Nat.ltb_ge. exact H. Qed.

(** A run in which nothing throws ends with the fitted model as the live
    model. *)
Lemma train_success (backend : Backend) (st : State) (X Y : Tensor) (m' : LayersModel) :
  length (labels st) <= length (xs (datasetRef st)) ->
  concat0 (xs (datasetRef st)) = Ok X ->
  concat0 (ys (datasetRef st)) = Ok Y ->
  fit backend (buildModel (length (labels st))) X Y = (m', Ok ()) ->
  train backend st = setStatus "Training complete!" (setModel (Some m') st).
Proof.
  intros Henough HX HY Hfit.
  rewrite (train_unfold backend st), (enough_examples st Henough), HX, HY, Hfit.
  reflexivity.
Qed.

(** [fit] trains the model it is given: whatever happens to the parameters,
    the layers and the compile arguments are those of that model. *)
Lemma fit_same_network (backend : Backend) (m : LayersModel) (X Y : Tensor) :
  layers (fst (fit backend m X Y)) = layers m /\
  compiled (fst (fit backend m X Y)) = compiled m.
Proof.
  unfold fit. destruct (compiled m) as [args|] eqn:Hc; [|simpl; auto].
  destruct (negb _); [simpl; auto|].
  destruct (negb _); [simpl; auto|].
  destruct (optimise backend m X Y); simpl; auto.
Qed.

(** C1, as the code has it.  When a concatenation fails, [train] leaves the
    live model (and all but the status line) as it was and reports
    "Training failed" with the message of the error.  When the
    concatenations succeed and [fit] fails, [train] reports "Training
    failed" with the message as well, but the live model is by then the
    model built for this run. *)
Theorem train_failure (backend : Backend) (st : State) :
  length (labels st) <= length (xs (datasetRef st)) ->
  (forall msg,
     concat0 (xs (datasetRef st)) = Throw msg \/
     (exists X, concat0 (xs (datasetRef st)) = Ok X /\
                concat0 (ys (datasetRef st)) = Throw msg) ->
     train backend st = setStatus ("Training failed: " +:+ msg) st /\
     model (train backend st) = model st) /\
  (forall X Y m' msg,
     labels st <> [] ->
     concat0 (xs (datasetRef st)) = Ok X ->
     concat0 (ys (datasetRef st)) = Ok Y ->
     fit backend (buildModel (length (labels st))) X Y = (m', Throw msg) ->
     train backend st = setStatus ("Training failed: " +:+ msg) (setModel (Some m') st) /\
     model (train backend st) = Some m' /\
     layers m' = layers (buildModel (length (labels st)))).
Proof.
  intros Henough. split.
  - intros msg Hfail. rewrite (train_unfold backend st), (enough_examples st Henough).
    destruct Hfail as [HX | (X & HX & HY)].
    + rewrite HX. split; reflexivity.
    + rewrite HX, HY. split; reflexivity.
  - intros X Y m' msg _ HX HY Hfit.
    rewrite (train_unfold backend st), (enough_examples st Henough), HX, HY, Hfit.
    split; [reflexivity|]. split; [reflexivity|].
    pose proof (fit_same_network backend (buildModel (length (labels st))) X Y) as [Hl _].
    rewrite Hfit in Hl. exact Hl.
Qed.

Lemma train_failure_witness :
  (train Sample.backend Sample.mixedTargets =
     setStatus
       "Training failed: Error in concat: all tensors must have the same shape outside axis 0"
       Sample.mixedTargets) /\
  (model (train Sample.backend Sample.trainedThenLabelAdded) = Some (buildModel 3)).
Proof.
  split.
  - assert (Henough : length (labels Sample.mixedTargets)
                      <= length (xs (datasetRef Sample.mixedTargets)))
      by (vm_compute; lia).
    destruct (train_failure Sample.backend Sample.mixedTargets Henough) as [Hconcat _].
    apply Hconcat. right.
    exists (Sample.batch (xs (datasetRef Sample.mixedTargets))).
    split; vm_compute; reflexivity.
  - assert (Henough : length (labels Sample.trainedThenLabelAdded)
                      <= length (xs (datasetRef Sample.trainedThenLabelAdded)))
      by (vm_compute; lia).
    destruct (train_failure Sample.backend Sample.trainedThenLabelAdded Henough)
      as [_ Hthrows].
    apply (Hthrows (Sample.batch (xs (datasetRef Sample.trainedThenLabelAdded)))
                   (Sample.batch (ys (datasetRef Sample.trainedThenLabelAdded)))
                   (buildModel 3)
                   "Error when checking target: unexpected target shape").
    + vm_compute. discriminate.
    + vm_compute. reflexivity.
    + vm_compute. reflexivity.
    + vm_compute. reflexivity.
Defined.

(** C1, as the specification has it, fails.  In a reachable state with a
    live model of two outputs, a training run whose concatenations succeed
    and whose [fit] throws ends with "Training failed" on the status line
    and with another live model than before: the untrained model of three
    outputs built for the run. *)
Lemma train_fit_failure_replaces_model :
  let st := Sample.trainedThenLabelAdded in
  reachable st /\
  (exists X Y m' msg,
     concat0 (xs (datasetRef st)) = Ok X /\
     concat0 (ys (datasetRef st)) = Ok Y /\
     fit Sample.backend (buildModel (length (labels st))) X Y = (m', Throw msg) /\
     status (train Sample.backend st) = "Training failed: " +:+ msg) /\
  option_map outputWidth (model st) = Some 2 /\
  option_map outputWidth (model (train Sample.backend st)) = Some 3 /\
  model (train Sample.backend st) <> model st.
Proof.
  intros st. split.
  { unfold st, Sample.trainedThenLabelAdded, Sample.trained.
    apply reachable_step; [|exact I].
    apply reachable_run; [apply reachable_fresh|]. vm_compute. tauto. }
  split.
  { exists (Sample.batch (xs (datasetRef st))), (Sample.batch (ys (datasetRef st))),
      (buildModel 3), "Error when checking target: unexpected target shape".
    split; [vm_compute; reflexivity|].
    split; [vm_compute; reflexivity|].
    split; [vm_compute; reflexivity|]. vm_compute. reflexivity. }
  assert (H2 : option_map outputWidth (model st) = Some 2) by (vm_compute; reflexivity).
  assert (H3 : option_map outputWidth (model (train Sample.backend st)) = Some 3)
    by (vm_compute; reflexivity).
  split; [exact H2|]. split; [exact H3|].
  intros Heq. rewrite Heq, H2 in H3. discriminate.
Qed.

(** ** The inference engine *)

(** [Math.max] over finite numbers, started from a finite number, returns
    the start or one of the numbers, and nothing is above it. *)
Lemma fold_max2_fin (qs : list Q) (a : Q) :
  exists m, fold_left max2 (map Fin qs) (Fin a) = Fin m /\
    (a <= m)%Q /\ (forall q, q ∈ qs -> (q <= m)%Q) /\ (m = a \/ m ∈ qs).
Proof.
  revert a. induction qs as [|q rest IH]; intros a; simpl.
  - exists a. repeat split; [lra | intros q Hq; inversion Hq | left; reflexivity].
  - destruct (Qle_bool a q) eqn:Hle.
    + apply Qle_bool_iff in Hle.
      destruct (IH q) as (m & Hm & Hqm & Hall & Hin). exists m.
      split; [exact Hm|]. split; [lra|]. split.
      * intros z Hz. inversion Hz; subst; [exact Hqm | auto].
      * right. destruct Hin as [-> | Hin]; [left | right; exact Hin].
    + assert (Hlt : (q < a)%Q).
      { apply Qnot_le_lt. intros H. apply Qle_bool_iff in H. congruence. }
      destruct (IH a) as (m & Hm & Ham & Hall & Hin). exists m.
      split; [exact Hm|]. split; [exact Ham|]. split.
      * intros z Hz. inversion Hz; subst; [lra | auto].
      * destruct Hin as [-> | Hin]; [left; reflexivity | right; right; exact Hin].
Qed.

Lemma Math_max_fin (qs : list Q) :
  qs <> [] ->
  exists m, Math_max (map Fin qs) = Fin m /\ m ∈ qs /\ forall q, q ∈ qs -> (q <= m)%Q.
Proof.
  destruct qs as [|q rest]; [congruence|]. intros _. unfold Math_max. simpl.
  destruct (fold_max2_fin rest q) as (m & Hm & Hqm & Hall & Hin). exists m.
  split; [exact Hm|]. split.
  - destruct Hin as [-> | Hin]; [left | right; exact Hin].
  - intros z Hz. inversion Hz; subst; [exact Hqm | auto].
Qed.

(** [arr.indexOf(Math.max(...arr))] is the first position of the maximum. *)
Lemma argmax_first (qs : list Q) (i : nat) (qi : Q) :
  qs !! i = Some qi ->
  (forall j qj, qs !! j = Some qj -> (qj <= qi)%Q) ->
  (forall k qk, k < i -> qs !! k = Some qk -> (qk < qi)%Q) ->
  indexOf strictEq (map Fin qs) (Math_max (map Fin qs)) = Z.of_nat i.
Proof.
  intros Hi Hmax Hfirst.
  destruct (Math_max_fin qs) as (m & Hm & Hin & Hall).
  { intros ->. discriminate. }
  assert (Heq : (m == qi)%Q).
  { apply list_elem_of_lookup in Hin. destruct Hin as [j Hj].
    apply Qle_antisym; [exact (Hmax j m Hj)|].
    apply Hall. eapply list_elem_of_lookup_2. exact Hi. }
  rewrite Hm. unfold indexOf.
  rewrite (indexOfFrom_first strictEq (map Fin qs) (Fin m) 0 i (Fin qi)); [lia | | |].
  - rewrite list_lookup_fmap, Hi. reflexivity.
  - simpl. apply Qeq_bool_iff. symmetry. exact Heq.
  - intros k z Hk Hz. rewrite list_lookup_fmap in Hz.
    destruct (qs !! k) as [qk|] eqn:Hqk; [|discriminate].
    injection Hz as <-. simpl.
    destruct (Qeq_bool qk m) eqn:Hb; [|reflexivity].
    apply Qeq_bool_iff in Hb. pose proof (Hfirst k qk Hk Hqk). lra.
Qed.

(** What [predict] does when there is a live model, the canvas gives a
    tensor and the forward pass returns. *)
Lemma predict_unfold (backend : Backend) (st : State) (m : LayersModel)
    (x : Tensor) (arr : list number) :
  model st = Some m -> canvasToTensor (canvasRef st) = Ok x ->
  forward backend m x = Ok arr ->
  predict backend st =
    setPrediction
      (Some {| label := at_ (labels st) (indexOf strictEq arr (Math_max arr));
               probs := arr |}) st.
Proof.
  intros Hm Hx Harr. unfold predict. rewrite Hm.
  unfold tryCatch, mbind, Eff_bind, liftExc, update. rewrite Hx, Harr. reflexivity.
Qed.

Lemma at_nat {A : Type} (arr : list A) (i : nat) : at_ arr (Z.of_nat i) = arr !! i.
Proof.
  unfold at_. destruct (Z.ltb_spec (Z.of_nat i) 0) as [Hneg|_]; [lia|].
  rewrite Nat2Z.id. reflexivity.
Qed.

(** C4.  On a vector of finite probabilities that the live model produced:
    when the maximum is attained at one position only, [predict] returns
    the label at that position; when it is attained at positions i < j and
    nowhere before i, [predict] returns the label at position i. *)
Theorem predict_first_maximum (backend : Backend) (st : State) (m : LayersModel)
    (x : Tensor) (qs : list Q) :
  model st = Some m -> canvasToTensor (canvasRef st) = Ok x ->
  forward backend m x = Ok (map Fin qs) ->
  (forall i, uniqueMaximumAt qs i ->
     prediction (predict backend st)
       = Some {| label := labels st !! i; probs := map Fin qs |}) /\
  (forall i j, tiedMaximumAt qs i j ->
     prediction (predict backend st)
       = Some {| label := labels st !! i; probs := map Fin qs |}).
Proof.
  intros Hm Hx Harr. rewrite (predict_unfold backend st m x _ Hm Hx Harr).
  cbn [prediction setPrediction]. split.
  - intros i (qi & Hi & Hothers).
    rewrite (argmax_first qs i qi Hi), at_nat; [reflexivity | |].
    + intros j qj Hj. destruct (Nat.eq_dec j i) as [->|Hne].
      * rewrite Hi in Hj. injection Hj as ->. lra.
      * apply Qlt_le_weak. exact (Hothers j qj Hne Hj).
    + intros k qk Hk Hqk. apply (Hothers k qk); [lia | exact Hqk].
  - intros i j (Hij & (qi & Hi & Hmax) & _ & (qi' & Hi' & Hfirst)).
    rewrite Hi in Hi'. injection Hi' as <-.
    rewrite (argmax_first qs i qi Hi Hmax Hfirst), at_nat. reflexivity.
Qed.

Lemma predict_first_maximum_witness :
  prediction (predict Sample.backend Sample.threeClasses)
    = Some {| label := Some "triangle";
              probs := [Fin (1 # 10); Fin (2 # 10); Fin (7 # 10)] |} /\
  prediction (predict Sample.tieBackend Sample.threeClasses)
    = Some {| label := Some "square";
              probs := [Fin (2 # 10); Fin (4 # 10); Fin (4 # 10)] |}.
Proof.
  destruct (model Sample.threeClasses) as [m|] eqn:Hm; [|vm_compute in Hm; discriminate].
  destruct (canvasToTensor (canvasRef Sample.threeClasses)) as [x|msg] eqn:Hx;
    [|vm_compute in Hx; discriminate].
  split.
  - destruct (predict_first_maximum Sample.backend Sample.threeClasses m x
                [1 # 10; 2 # 10; 7 # 10] Hm Hx eq_refl)%Q as [Hunique _].
    apply (Hunique 2). exists (7 # 10)%Q. split; [reflexivity|].
    intros [|[|[|j]]] qj Hne Hj; simpl in Hj; try rewrite lookup_nil in Hj;
      try congruence; injection Hj as <-; reflexivity.
  - destruct (predict_first_maximum Sample.tieBackend Sample.threeClasses m x
                [2 # 10; 4 # 10; 4 # 10] Hm Hx eq_refl)%Q as [_ Htie].
    apply (Htie 1 2). split; [lia|].
    assert (Hmax : forall j qj, [2 # 10; 4 # 10; 4 # 10]%Q !! j = Some qj -> (qj <= 4 # 10)%Q).
    { intros [|[|[|j]]] qj Hj; simpl in Hj; try rewrite lookup_nil in Hj;
        try congruence; injection Hj as <-; unfold Qle; simpl; lia. }
    split; [exists (4 # 10)%Q; split; [reflexivity | exact Hmax]|].
    split; [exists (4 # 10)%Q; split; [reflexivity | exact Hmax]|].
    exists (4 # 10)%Q. split; [reflexivity|].
    intros [|k] qk Hk Hqk; [|lia]. simpl in Hqk. injection Hqk as <-. reflexivity.
Defined.

(** When the position of the maximum is not a position of the label set,
    the label of the prediction is [undefined]. *)
Lemma predict_label_undefined (backend : Backend) (st : State) (m : LayersModel)
    (x : Tensor) (arr : list number) :
  model st = Some m -> canvasToTensor (canvasRef st) = Ok x ->
  forward backend m x = Ok arr ->
  (Z.of_nat (length (labels st)) <= indexOf strictEq arr (Math_max arr))%Z ->
  prediction (predict backend st) = Some {| label := None; probs := arr |}.
Proof.
  intros Hm Hx Harr Hout. rewrite (predict_unfold backend st m x arr Hm Hx Harr).
  cbn [prediction setPrediction]. unfold at_.
  destruct (Z.ltb_spec (indexOf strictEq arr (Math_max arr)) 0) as [_|Hpos]; [reflexivity|].
  rewrite (proj2 (lookup_ge_None _ _)); [reflexivity | lia].
Qed.

(** C10.  There is a reachable state (a model trained on three labels,
    then the third label removed) whose live model has more outputs than
    there are labels, and a probability vector of the width of the model
    whose maximum is at a position past the label set: [predict] indexes
    the label set there without a check, and the label of the prediction is
    [undefined], which is no label of the label set. *)
Theorem predict_label_outside_label_set :
  exists (st : State) (backend : Backend) (m : LayersModel) (x : Tensor)
         (arr : list number) (p : Prediction),
    reachable st /\
    model st = Some m /\ length (labels st) < outputWidth m /\
    canvasToTensor (canvasRef st) = Ok x /\
    forward backend m x = Ok arr /\ length arr = outputWidth m /\
    Forall unitInterval arr /\
    (Z.of_nat (length (labels st)) <= indexOf strictEq arr (Math_max arr))%Z /\
    prediction (predict backend st) = Some p /\
    label p = None /\ (forall l, l ∈ labels st -> label p <> Some l).
Proof.
  destruct (model Sample.threeClassesLabelRemoved) as [m|] eqn:Hm;
    [|vm_compute in Hm; discriminate].
  destruct (canvasToTensor (canvasRef Sample.threeClassesLabelRemoved)) as [x|msg] eqn:Hx;
    [|vm_compute in Hx; discriminate].
  exists Sample.threeClassesLabelRemoved, Sample.backend, m, x,
    [Fin (1 # 10); Fin (2 # 10); Fin (7 # 10)], {| label := None; probs := [Fin (1 # 10); Fin (2 # 10); Fin (7 # 10)] |}.
  assert (Hw : outputWidth m = 3).
  { vm_compute in Hm. injection Hm as <-. reflexivity. }
  assert (Hout : (Z.of_nat (length (labels Sample.threeClassesLabelRemoved))
                  <= indexOf strictEq [Fin (1 # 10); Fin (2 # 10); Fin (7 # 10)]
                       (Math_max [Fin (1 # 10); Fin (2 # 10); Fin (7 # 10)]))%Z)
    by (vm_compute; discriminate).
  split.
  { apply reachable_step; [|exact I].
    apply reachable_run; [apply reachable_fresh|]. vm_compute. tauto. }
  split; [exact Hm|].
  split; [rewrite Hw; vm_compute; lia|].
  split; [exact Hx|]. split; [reflexivity|]. split; [rewrite Hw; reflexivity|].
  split.
  { repeat constructor; eexists; (split; [reflexivity|]); unfold Qle; simpl; lia. }
  split; [exact Hout|].
  split; [exact (predict_label_undefined Sample.backend _ m x _ Hm Hx eq_refl Hout)|].
  split; [reflexivity|]. intros l _. discriminate.
Qed.

(** ** The persistence manager *)

(** A save that goes through writes the artifacts of the live model and
    the label list, and says so. *)
Lemma saveModel_unfold (st : State) (m : LayersModel) :
  model st = Some m ->
  saveModel noFaults st =
    setStatus "Model saved to IndexedDB"
      (setSavedLabels (Some (Parses (StringArray (labels st))))
        (setSavedModel (Some (artifactsOf m)) st)).
Proof. intros Hm. unfold saveModel. rewrite Hm. reflexivity. Qed.

(** A load that finds a model and a non-empty list of labels. *)
Lemma loadModel_unfold (st : State) (a : ModelArtifacts) (first : string)
    (rest : list string) :
  savedModel st = Some a ->
  savedLabels st = Some (Parses (StringArray (first :: rest))) ->
  loadModel st =
    setStatus "Model loaded from IndexedDB"
      (setCurrentLabel (Some first)
        (setLabels (first :: rest) (setModel (Some (modelOf a)) st))).
Proof.
  intros Ha Hl. unfold loadModel, tryCatch, mbind, Eff_bind, liftExc, update.
  rewrite Ha. cbn [model savedLabels setModel]. rewrite Hl. reflexivity.
Qed.

(** C3, as the code has it.  After a save that went through in a state
    with a live model and a non-empty label set, a load from the two
    stores restores a model with the layers and parameters of the saved
    one, so with the output width of the saved model, and the saved label
    set, label for label and in order.  The restored width is the length of
    the label set when that was so for the saved model. *)
Theorem save_load_round_trip (st later : State) (m : LayersModel) :
  model st = Some m -> labels st <> [] ->
  savedModel later = savedModel (saveModel noFaults st) ->
  savedLabels later = savedLabels (saveModel noFaults st) ->
  status (saveModel noFaults st) = "Model saved to IndexedDB" /\
  exists m',
    model (loadModel later) = Some m' /\
    layers m' = layers m /\ weights m' = weights m /\
    outputWidth m' = outputWidth m /\
    labels (loadModel later) = labels st /\
    status (loadModel later) = "Model loaded from IndexedDB" /\
    (outputWidth m = length (labels st) ->
     outputWidth m' = length (labels (loadModel later))).
Proof.
  intros Hm Hne. rewrite (saveModel_unfold st m Hm).
  cbn [savedModel savedLabels setStatus setSavedLabels setSavedModel status].
  intros Ha Hl. split; [reflexivity|].
  destruct (labels st) as [|first rest] eqn:Hlabels; [congruence|].
  rewrite (loadModel_unfold later (artifactsOf m) first rest Ha Hl).
  exists (modelOf (artifactsOf m)).
  cbn [model labels status setStatus setCurrentLabel setLabels setModel].
  repeat split; auto.
Qed.

Lemma save_load_round_trip_witness :
  let st := Sample.trained in
  exists m',
    model (loadModel (saveModel noFaults st)) = Some m' /\
    outputWidth m' = 2 /\
    labels (loadModel (saveModel noFaults st)) = ["circle"; "square"].
Proof.
  intros st.
  destruct (model st) as [m|] eqn:Hm; [|vm_compute in Hm; discriminate].
  assert (Hne : labels st <> []) by (vm_compute; discriminate).
  destruct (save_load_round_trip st (saveModel noFaults st) m Hm Hne eq_refl eq_refl)
    as (_ & m' & Hm' & _ & _ & Hw & Hl & _).
  exists m'. split; [exact Hm'|]. split; [|rewrite Hl; vm_compute; reflexivity].
  rewrite Hw. vm_compute in Hm. injection Hm as <-. reflexivity.
Defined.

(** C3, as the specification has it, fails.  In a reachable state with a
    live model and three labels, a save followed by a load restores a
    model whose output width is 2, not the length 3 of the saved label
    set. *)
Lemma save_load_width_mismatch :
  let st := Sample.trainedThenLabelAdded in
  reachable st /\
  (exists m, model st = Some m) /\ labels st <> [] /\
  status (saveModel noFaults st) = "Model saved to IndexedDB" /\
  exists m',
    model (loadModel (saveModel noFaults st)) = Some m' /\
    labels (loadModel (saveModel noFaults st)) = labels st /\
    outputWidth m' = 2 /\ length (labels st) = 3 /\
    outputWidth m' <> length (labels st).
Proof.
  intros st. split.
  { unfold st, Sample.trainedThenLabelAdded, Sample.trained.
    apply reachable_step; [|exact I].
    apply reachable_run; [apply reachable_fresh|]. vm_compute. tauto. }
  split; [eexists; vm_compute; reflexivity|].
  split; [vm_compute; discriminate|].
  split; [vm_compute; reflexivity|].
  eexists. split; [vm_compute; reflexivity|].
  split; [vm_compute; reflexivity|].
  split; [reflexivity|]. split; [reflexivity|]. vm_compute. lia.
Qed.

(** ** The label set *)

(** In a list without duplicates, [indexOf] gives a label its position. *)
Lemma NoDup_indexOf (ls : list string) (i : nat) (l : string) :
  NoDup ls -> ls !! i = Some l -> indexOf String.eqb ls l = Z.of_nat i.
Proof.
  intros Hnd Hi. unfold indexOf.
  rewrite (indexOfFrom_first String.eqb ls l 0 i l Hi (String.eqb_refl l)); [lia|].
  intros j z Hj Hz. apply String.eqb_neq. intros ->.
  pose proof (NoDup_lookup ls i j l Hnd Hi Hz). lia.
Qed.

Lemma labelSet_intro (ls : list string) :
  NoDup ls -> ls <> [] -> LabelSetInvariant ls.
Proof.
  intros Hnd Hne. split; [exact Hnd|]. split; [exact Hne|].
  intros i l. apply NoDup_indexOf. exact Hnd.
Qed.

(** Removing the current label from a list without duplicates removes at
    most one label. *)
Lemma filter_current_length (ls : list string) (c : option string) :
  NoDup ls -> length ls <= S (length (filter (fun l => Some l ≠ c) ls)).
Proof.
  induction 1 as [|a rest Hnotin Hnd IH]; [simpl; lia|].
  destruct (decide (Some a = c)) as [Heq|Hne].
  - rewrite filter_cons_False by (intros H; apply H; exact Heq).
    assert (Hall : filter (fun l => Some l ≠ c) rest = rest).
    { clear IH. induction rest as [|b rest IH]; [reflexivity|].
      rewrite filter_cons_True.
      - f_equal. apply IH.
        + intros Hin. apply Hnotin. right. exact Hin.
        + inversion Hnd; assumption.
      - intros Hb. apply Hnotin. assert (Hab : a = b) by congruence.
        rewrite Hab. left. }
    rewrite Hall. simpl. lia.
  - rewrite filter_cons_True by exact Hne. simpl. lia.
Qed.

Lemma addLabel_labelSet (answer : option string) (st : State) :
  LabelSetInvariant (labels st) -> LabelSetInvariant (labels (addLabel answer st)).
Proof.
  intros (Hnd & Hne & Hidx). unfold addLabel.
  destruct answer as [l|]; [|repeat split; assumption].
  destruct (bool_decide (l = "")); simpl; [repeat split; assumption|].
  destruct (bool_decide_reflect (l ∈ labels st)) as [Hin|Hnotin]; simpl;
    [repeat split; assumption|].
  apply labelSet_intro.
  - apply NoDup_app. split; [exact Hnd|]. split; [|apply NoDup_singleton].
    intros x Hx Hxl. apply list_elem_of_singleton in Hxl. subst x. exact (Hnotin Hx).
  - intros Happ. apply app_eq_nil in Happ. destruct Happ as [_ Hnil]. discriminate.
Qed.

Lemma removeLabel_labelSet (st : State) :
  LabelSetInvariant (labels st) -> LabelSetInvariant (labels (removeLabel st)).
Proof.
  intros (Hnd & Hne & Hidx). unfold removeLabel.
  destruct (Nat.leb_spec (length (labels st)) 1) as [Hle|Hgt];
    [repeat split; assumption|].
  cbn [labels setCurrentLabel setLabels]. apply labelSet_intro.
  - apply NoDup_filter. exact Hnd.
  - intros Hnil. pose proof (filter_current_length (labels st) (currentLabel st) Hnd) as Hlen.
    rewrite Hnil in Hlen. simpl in Hlen. lia.
Qed.

(** Removing the last remaining label is rejected. *)
Lemma removeLabel_last (st : State) :
  length (labels st) <= 1 -> removeLabel st = st.
Proof.
  intros Hle. unfold removeLabel.
  destruct (Nat.leb_spec (length (labels st)) 1) as [_|Hgt]; [reflexivity | lia].
Qed.

(** [loadModel] keeps the label set, or replaces it by the stored list when
    that list is not empty; it does not write to the stores. *)
Lemma loadModel_labels (st : State) :
  savedLabels (loadModel st) = savedLabels st /\
  (labels (loadModel st) = labels st \/
   exists first rest,
     savedLabels st = Some (Parses (StringArray (first :: rest))) /\
     labels (loadModel st) = first :: rest).
Proof.
  unfold loadModel, tryCatch, mbind, Eff_bind, liftExc, update.
  destruct (savedModel st) as [a|]; [|split; [reflexivity | left; reflexivity]].
  cbn [savedLabels setModel].
  destruct (savedLabels st) as [[| |[|[|first rest]]]|] eqn:Hs; cbn;
    try (split; [congruence | left; reflexivity]).
  split; [congruence|]. right. exists first, rest. split; reflexivity.
Qed.

Lemma loadModel_invariant (st : State) : Invariant st -> Invariant (loadModel st).
Proof.
  intros [Hls Hstored]. destruct (loadModel_labels st) as [Hsaved Hlabels].
  split; [|rewrite Hsaved; exact Hstored].
  destruct Hlabels as [-> | (first & rest & Hs & ->)]; [exact Hls|].
  apply labelSet_intro; [exact (Hstored _ Hs) | discriminate].
Qed.

(** [saveModel] keeps the label set, and what it writes to the label store
    is the label set. *)
Lemma saveModel_invariant (faults : StoreFaults) (st : State) :
  Invariant st -> Invariant (saveModel faults st).
Proof.
  intros [Hls Hstored]. unfold saveModel.
  destruct (model st) as [m|]; [|split; assumption].
  unfold tryCatch, mbind, Eff_bind, write, throw, update.
  destruct (modelWrite faults) as [msg|]; [split; assumption|].
  destruct (labelsWrite faults) as [msg|]; [split; assumption|].
  split; [exact Hls|]. cbn. intros items [= <-]. apply Hls.
Qed.

(** The other handlers touch neither the label set nor the label store. *)
Lemma addExample_labels (st : State) :
  labels (addExample st) = labels st /\ savedLabels (addExample st) = savedLabels st.
Proof.
  destruct (canvasToTensor (canvasRef st)) as [x|msg] eqn:Hx.
  - rewrite (addExample_unfold st x Hx).
    destruct (labelIndex (labels st) (currentLabel st) =? -1)%Z; [split; reflexivity|].
    destruct (oneHot _ _); split; reflexivity.
  - unfold addExample, tryCatch, mbind, Eff_bind, liftExc. rewrite Hx.
    split; reflexivity.
Qed.

Lemma train_labels (backend : Backend) (st : State) :
  labels (train backend st) = labels st /\
  savedLabels (train backend st) = savedLabels st.
Proof.
  rewrite (train_unfold backend st).
  destruct (length (xs (datasetRef st)) <? length (labels st)); [split; reflexivity|].
  destruct (concat0 (xs (datasetRef st))) as [X|msg]; [|split; reflexivity].
  destruct (concat0 (ys (datasetRef st))) as [Y|msg]; [|split; reflexivity].
  destruct (fit backend (buildModel (length (labels st))) X Y) as [m' [u|msg]];
    split; reflexivity.
Qed.

Lemma predict_labels (backend : Backend) (st : State) :
  labels (predict backend st) = labels st /\
  savedLabels (predict backend st) = savedLabels st.
Proof.
  unfold predict. destruct (model st) as [m|]; [|split; reflexivity].
  unfold tryCatch, mbind, Eff_bind, liftExc, update.
  destruct (canvasToTensor (canvasRef st)) as [x|msg]; [|split; reflexivity].
  destruct (forward backend m x) as [arr|msg]; split; reflexivity.
Qed.

Lemma step_invariant (a : Action) (st : State) : Invariant st -> Invariant (step a st).
Proof.
  intros Hinv. pose proof Hinv as [Hls Hstored].
  destruct a as [pixels| | |backend|backend|faults| |answer| |value|color]; simpl.
  - unfold draw. destruct (canvasRef st); exact Hinv.
  - unfold clearCanvas, clearCanvasEff. destruct (canvasRef st); exact Hinv.
  - destruct (addExample_labels st) as [Hl Hs]. unfold Invariant. rewrite Hl, Hs. exact Hinv.
  - destruct (train_labels backend st) as [Hl Hs]. unfold Invariant. rewrite Hl, Hs.
    exact Hinv.
  - destruct (predict_labels backend st) as [Hl Hs]. unfold Invariant. rewrite Hl, Hs.
    exact Hinv.
  - apply saveModel_invariant. exact Hinv.
  - apply loadModel_invariant. exact Hinv.
  - split; [apply addLabel_labelSet; exact Hls|].
    unfold addLabel. destruct answer as [l|]; [|exact Hstored].
    destruct (_ && _); exact Hstored.
  - split; [apply removeLabel_labelSet; exact Hls|].
    unfold removeLabel. destruct (_ <=? _); exact Hstored.
  - exact Hinv.
  - exact Hinv.
Qed.

(** C8.  The invariant of the label set (no duplicates, at least one label,
    the index of a label is its position) is preserved by adding a label
    and by removing a label, and removing the last remaining label changes
    nothing.  Loading the persisted labels preserves it when the stored
    label list has no duplicates, and then every handler preserves the
    invariant of the label set together with that of the label store; a
    save that goes through writes the label set, so what it stores has no
    duplicates. *)
Theorem labelSet_invariant_preserved (st : State) :
  LabelSetInvariant (labels st) ->
  (forall answer, LabelSetInvariant (labels (addLabel answer st))) /\
  LabelSetInvariant (labels (removeLabel st)) /\
  (length (labels st) = 1 -> removeLabel st = st) /\
  (StoredLabelsInvariant (savedLabels st) ->
   LabelSetInvariant (labels (loadModel st)) /\
   forall a, Invariant (step a st)) /\
  (model st <> None ->
   savedLabels (saveModel noFaults st) = Some (Parses (StringArray (labels st))) /\
   StoredLabelsInvariant (savedLabels (saveModel noFaults st))).
Proof.
  intros Hls.
  split; [intros answer; apply addLabel_labelSet; exact Hls|].
  split; [apply removeLabel_labelSet; exact Hls|].
  split; [intros Hone; apply removeLabel_last; lia|].
  split.
  - intros Hstored.
    split; [apply loadModel_invariant; split; assumption|].
    intros a. apply step_invariant. split; assumption.
  - intros Hmodel. unfold saveModel.
    destruct (model st) as [m|]; [|congruence].
    unfold tryCatch, mbind, Eff_bind, write, update. cbn.
    split; [reflexivity|]. intros items [= <-]. apply Hls.
Qed.

(** C8, as the specification has it, fails for loading.  [loadModel]
    installs any stored list that is not empty.  A page mounted over a
    label store that holds the list "x", "x" has a label set with a
    duplicate, and Remove Label then leaves it with no label at all and no
    current label. *)
Lemma loadModel_duplicate_labels :
  let idb := Some (artifactsOf (buildModel 2)) in
  let ls := Some (Parses (StringArray ["x"; "x"])) in
  let st := initialState (fillWhite (getContext Sample.canvas)) idb ls in
  LabelSetInvariant (labels st) /\
  loadModel st = mount Sample.canvas idb ls /\
  status (loadModel st) = "Model loaded from IndexedDB" /\
  labels (loadModel st) = ["x"; "x"] /\
  ~ LabelSetInvariant (labels (loadModel st)) /\
  labels (removeLabel (loadModel st)) = [] /\
  currentLabel (removeLabel (loadModel st)) = None /\
  ~ LabelSetInvariant (labels (removeLabel (loadModel st))).
Proof.
  intros idb ls st.
  split.
  { apply labelSet_intro; [|discriminate].
    apply (bool_decide_unpack _). vm_compute. reflexivity. }
  split; [reflexivity|].
  split; [vm_compute; reflexivity|].
  assert (Hloaded : labels (loadModel st) = ["x"; "x"]) by (vm_compute; reflexivity).
  split; [exact Hloaded|]. split.
  { rewrite Hloaded. intros (Hnd & _). apply NoDup_cons in Hnd as [Hnotin _].
    apply Hnotin. left. }
  assert (Hremoved : labels (removeLabel (loadModel st)) = []) by (vm_compute; reflexivity).
  split; [exact Hremoved|].
  split; [vm_compute; reflexivity|].
  rewrite Hremoved. intros (_ & Hne & _). apply Hne. reflexivity.
Qed.

(** Every reachable state satisfies the invariant. *)
Lemma mount_invariant (canvas : Canvas) : Invariant (mount canvas None None).
Proof.
  split; [|intros items H; discriminate].
  apply labelSet_intro; [|discriminate].
  apply (bool_decide_unpack _). vm_compute. reflexivity.
Qed.

Lemma reachable_invariant (st : State) : reachable st -> Invariant st.
Proof.
  induction 1 as [canvas Hwf | a st Hst IH Hen]; [apply mount_invariant|].
  apply step_invariant. exact IH.
Qed.

Lemma labelSet_invariant_preserved_witness :
  let st := run [ClickAddLabel (Some "triangle"); ClickSave noFaults;
                 ClickRemoveLabel; ClickRemoveLabel] Sample.trained in
  Invariant st /\
  Invariant (step ClickLoad st) /\
  labels st = ["square"] /\ removeLabel st = st /\
  labels (step ClickLoad st) = ["circle"; "square"; "triangle"].
Proof.
  intros st.
  assert (Hinv : Invariant st).
  { apply reachable_invariant. apply reachable_run; [|vm_compute; tauto].
    apply reachable_run; [apply reachable_fresh | vm_compute; tauto]. }
  destruct (labelSet_invariant_preserved st (proj1 Hinv)) as (_ & _ & Hlast & Hload & _).
  destruct (Hload (proj2 Hinv)) as (_ & Hstep).
  split; [exact Hinv|]. split; [exact (Hstep ClickLoad)|].
  split; [vm_compute; reflexivity|].
  split; [apply Hlast; vm_compute; reflexivity|].
  vm_compute. reflexivity.
Defined.

(** * Further theorems *)

(** ** What the handlers leave alone *)

(** [train] changes the live model and the status line, nothing else. *)
Lemma train_frame (backend : Backend) (st : State) :
  exists m s, train backend st = setStatus s (setModel m st).
Proof.
  rewrite (train_unfold backend st).
  assert (Hid : forall s, setStatus s st = setStatus s (setModel (model st) st))
    by (intros s; destruct st; reflexivity).
  destruct (length (xs (datasetRef st)) <? length (labels st)); [eexists _, _; apply Hid|].
  destruct (concat0 (xs (datasetRef st))) as [X|msg]; [|eexists _, _; apply Hid].
  destruct (concat0 (ys (datasetRef st))) as [Y|msg]; [|eexists _, _; apply Hid].
  destruct (fit backend (buildModel (length (labels st))) X Y) as [m' [u|msg]];
    eexists _, _; reflexivity.
Qed.

(** [predict] changes the prediction or the status line, never both, and
    nothing else: a failed prediction leaves the previous prediction on the
    page, and a successful one leaves the previous status line. *)
Lemma predict_frame (backend : Backend) (st : State) :
  (exists p, predict backend st = setPrediction (Some p) st) \/
  (exists s, predict backend st = setStatus s st).
Proof.
  unfold predict. destruct (model st) as [m|]; [|right; eexists; reflexivity].
  unfold tryCatch, mbind, Eff_bind, liftExc, update.
  destruct (canvasToTensor (canvasRef st)) as [x|msg]; [|right; eexists; reflexivity].
  destruct (forward backend m x) as [arr|msg]; [left | right]; eexists; reflexivity.
Qed.

(** [saveModel] changes the two stores and the status line, nothing else. *)
Lemma saveModel_frame (faults : StoreFaults) (st : State) :
  exists a l s,
    saveModel faults st = setStatus s (setSavedLabels l (setSavedModel a st)).
Proof.
  assert (Hid : forall s, setStatus s st
                = setStatus s (setSavedLabels (savedLabels st) (setSavedModel (savedModel st) st)))
    by (intros s; destruct st; reflexivity).
  unfold saveModel. destruct (model st) as [m|]; [|eexists _, _, _; apply Hid].
  unfold tryCatch, mbind, Eff_bind, write, throw, update.
  destruct (modelWrite faults) as [msg|]; [eexists _, _, _; apply Hid|].
  destruct (labelsWrite faults) as [msg|].
  - exists (Some (artifactsOf m)), (savedLabels st), ("Save failed: " +:+ msg).
    destruct st; reflexivity.
  - eexists _, _, _; reflexivity.
Qed.

(** [loadModel] changes the live model, the label set, the current label
    and the status line, nothing else. *)
Lemma loadModel_frame (st : State) :
  exists m ls c s,
    loadModel st = setStatus s (setCurrentLabel c (setLabels ls (setModel m st))).
Proof.
  assert (Hid : forall m s, setStatus s (setModel m st)
                = setStatus s (setCurrentLabel (currentLabel st)
                                 (setLabels (labels st) (setModel m st))))
    by (intros m s; destruct st; reflexivity).
  unfold loadModel, tryCatch, mbind, Eff_bind, liftExc, update.
  destruct (savedModel st) as [a|].
  - cbn [savedLabels setModel].
    destruct (savedLabels st) as [[| |[|[|first rest]]]|]; cbn;
      try (eexists _, _, _, _; apply Hid).
    eexists _, _, _, _; reflexivity.
  - exists (model st), (labels st), (currentLabel st), "No saved model found".
    destruct st; reflexivity.
Qed.

(** [addExample] either fails and changes the status line only, or
    appends the tensor of the canvas and the one-hot row of the current
    label, writes one count, sets the status line and clears the canvas
    and the prediction. *)
Lemma addExample_frame (st : State) :
  (exists s, addExample st = setStatus s st) \/
  (exists x c k canvas,
     canvasRef st = Some canvas /\ canvasToTensor (Some canvas) = Ok x /\
     currentLabel st = Some c /\ labels st !! k = Some c /\
     (forall j, j < k -> labels st !! j <> Some c) /\
     addExample st =
       setPrediction None
         (setCanvas (Some (fillWhite canvas))
           (setStatus ("Added example for " +:+ dq +:+ c +:+ dq)
             (setExamples (fun prev => <[c := plusOne (labelCount prev c)]> prev)
               (setDataset
                  (push x (expandDims0 (oneHotVector (Z.of_nat k) (length (labels st))))
                        (datasetRef st)) st))))).
Proof.
  destruct (canvasToTensor (canvasRef st)) as [x|msg] eqn:Hx.
  - rewrite (addExample_unfold st x Hx).
    destruct (Z.eqb_spec (labelIndex (labels st) (currentLabel st)) (-1)) as [_|Hfound];
      [left; eexists; reflexivity|].
    destruct (oneHot (labelIndex (labels st) (currentLabel st)) (length (labels st)))
      as [row|msg] eqn:Hrow; [|left; eexists; reflexivity].
    apply oneHot_inv in Hrow as [_ ->].
    right. destruct (canvasRef st) as [canvas|] eqn:Hc; [|discriminate].
    destruct (currentLabel st) as [c|] eqn:Hcur; [|simpl in Hfound; congruence].
    assert (Hin : c ∈ labels st).
    { destruct (decide (c ∈ labels st)) as [Hin|Hnot]; [exact Hin|].
      exfalso. apply Hfound. apply labelIndex_unknown. intros s [= <-]. exact Hnot. }
    destruct (labelIndex_known (labels st) c Hin) as (k & Hk & Hlook & Hfirst).
    exists x, c, k, canvas. rewrite Hk.
    repeat (split; [first [reflexivity | assumption]|]). reflexivity.
  - left. unfold addExample, tryCatch, mbind, Eff_bind, liftExc. rewrite Hx.
    eexists; reflexivity.
Qed.

(** [loadModel], by what the two stores hold. *)
Lemma loadModel_cases (st : State) :
  loadModel st =
    match savedModel st with
    | None => setStatus "No saved model found" st
    | Some a =>
        match parseSavedLabels (savedLabels st) with
        | Throw _ => setStatus "No saved model found" (setModel (Some (modelOf a)) st)
        | Ok (StringArray (first :: rest)) =>
            setStatus "Model loaded from IndexedDB"
              (setCurrentLabel (Some first)
                (setLabels (first :: rest) (setModel (Some (modelOf a)) st)))
        | Ok _ => setStatus "Model loaded from IndexedDB" (setModel (Some (modelOf a)) st)
        end
    end.
Proof.
  unfold loadModel, tryCatch, mbind, Eff_bind, liftExc, update.
  destruct (savedModel st) as [a|]; [|reflexivity].
  cbn [savedLabels setModel].
  destruct (savedLabels st) as [[| |[|[|first rest]]]|]; reflexivity.
Qed.

(** ** Invariants of the page *)

Lemma fillWhite_wellFormed (c : Canvas) : wellFormed c -> wellFormed (fillWhite c).
Proof.
  intros (Hw & Hh & _). unfold wellFormed, fillWhite. simpl.
  rewrite repeat_length. auto.
Qed.

(** The tensor of a well-formed canvas is an input of the data set. *)
Lemma canvasToTensor_imageTensor (canvas : Canvas) (x : Tensor) :
  wellFormed canvas -> canvasToTensor (Some canvas) = Ok x -> imageTensor x.
Proof.
  intros (Hw & Hh & _) Hx.
  destruct (resizeBilinear_unit
              (divScalar (toFloat (fromPixels canvas 1)) (Fin 255))
              (height canvas) (width canvas) 1 28 28)
    as (resized & Hres & Hshape & Hlen & Hall); auto.
  - apply fromPixels_scaled_length.
  - apply fromPixels_scaled_unit.
  - unfold canvasToTensor, imageSize in Hx. rewrite Hres in Hx. simpl in Hx.
    injection Hx as <-. unfold imageTensor. simpl. rewrite Hshape. auto.
Qed.

Lemma canvasToTensor_ready (canvas : Canvas) :
  wellFormed canvas -> exists x, canvasToTensor (Some canvas) = Ok x /\ imageTensor x.
Proof.
  intros Hwf. pose proof Hwf as (Hw & Hh & _).
  destruct (resizeBilinear_unit
              (divScalar (toFloat (fromPixels canvas 1)) (Fin 255))
              (height canvas) (width canvas) 1 28 28)
    as (resized & Hres & _); auto.
  - apply fromPixels_scaled_length.
  - apply fromPixels_scaled_unit.
  - assert (Hx : canvasToTensor (Some canvas) = Ok (expandDims0 resized))
      by (unfold canvasToTensor, imageSize; rewrite Hres; reflexivity).
    eexists. split; [exact Hx|]. exact (canvasToTensor_imageTensor canvas _ Hwf Hx).
Qed.


Lemma push_invariant (x y : Tensor) (d : Dataset) :
  imageTensor x -> oneHotTarget y -> DatasetInvariant d -> DatasetInvariant (push x y d).
Proof.
  intros Hx Hy (Hlen & Hxs & Hys). unfold DatasetInvariant, push. simpl.
  rewrite !length_app, Hlen. split; [reflexivity|].
  split; apply Forall_app; split; auto.
Qed.

Lemma removeLabel_current (st : State) :
  NoDup (labels st) -> CurrentLabelKnown st -> CurrentLabelKnown (removeLabel st).
Proof.
  intros Hnd Hcur. unfold removeLabel.
  destruct (Nat.leb_spec (length (labels st)) 1) as [Hle|Hgt]; [exact Hcur|].
  unfold CurrentLabelKnown. cbn [currentLabel labels setCurrentLabel setLabels].
  pose proof (filter_current_length (labels st) (currentLabel st) Hnd) as Hlen.
  destruct (filter (fun l => Some l ≠ currentLabel st) (labels st)) as [|first rest];
    [simpl in Hlen; lia|].
  exists first. split; [reflexivity | left].
Qed.

Lemma step_page_invariant (a : Action) (st : State) :
  PageInvariant st -> enabled a st -> PageInvariant (step a st).
Proof.
  intros (Hinv & Hcanvas & Hcur & Hdata) Hen.
  split; [apply step_invariant; exact Hinv|].
  destruct Hcanvas as (canvas & Hc & Hwf).
  destruct a as [pixels| | |backend|backend|faults| |answer| |value|color]; simpl.
  - (* Draw *)
    unfold draw. simpl in Hen. rewrite Hc in *.
    split; [|split; assumption].
    eexists. split; [reflexivity|].
    destruct Hwf as (Hw & Hh & Hlen).
    split; [exact Hw|]. split; [exact Hh|]. cbn [rgba width height]. congruence.
  - (* Clear *)
    unfold clearCanvas, clearCanvasEff. rewrite Hc. simpl.
    split; [|split; assumption].
    eexists. split; [reflexivity|]. apply fillWhite_wellFormed. exact Hwf.
  - (* AddExample *)
    destruct (addExample_frame st) as [(s & ->) | (x & c & k & cv & Hcv & Hx & Hl & Hk & _ & ->)].
    + split; [exists canvas; split; assumption|]. split; assumption.
    + rewrite Hc in Hcv. injection Hcv as <-.
      split; [eexists; split; [reflexivity | apply fillWhite_wellFormed; exact Hwf]|].
      split; [exact Hcur|].
      cbn [datasetRef setPrediction setCanvas setStatus setExamples setDataset].
      apply push_invariant; [| |exact Hdata].
      * exact (canvasToTensor_imageTensor canvas x Hwf Hx).
      * exists (length (labels st)), k. split; [|reflexivity].
        apply lookup_lt_Some in Hk. exact Hk.
  - (* Train *)
    destruct (train_frame backend st) as (m & s & ->).
    split; [exists canvas; split; assumption|]. split; assumption.
  - (* Predict *)
    destruct (predict_frame backend st) as [(p & ->) | (s & ->)];
      (split; [exists canvas; split; assumption|]; split; assumption).
  - (* Save *)
    destruct (saveModel_frame faults st) as (sa & sl & s & ->).
    split; [exists canvas; split; assumption|]. split; assumption.
  - (* Load *)
    rewrite loadModel_cases.
    destruct (savedModel st) as [sa|];
      [|split; [exists canvas; split; assumption|]; split; assumption].
    destruct (parseSavedLabels (savedLabels st)) as [[|[|first rest]]|msg];
      (split; [exists canvas; split; assumption|]); (split; [|assumption]);
      try exact Hcur.
    exists first. split; [reflexivity | left].
  - (* AddLabel *)
    split; [exists canvas; unfold addLabel; destruct answer as [l|];
            [destruct (_ && _)|]; split; assumption|].
    unfold addLabel. destruct answer as [l|]; [|split; assumption].
    destruct (_ && _); [|split; assumption].
    split; [|exact Hdata].
    exists l. split; [reflexivity|]. cbn [labels setCurrentLabel setLabels].
    apply elem_of_app. right. left.
  - (* RemoveLabel *)
    split; [exists canvas; unfold removeLabel; destruct (length (labels st) <=? 1); split; assumption|].
    split; [apply removeLabel_current; [exact (proj1 (proj1 Hinv)) | exact Hcur]|].
    unfold removeLabel. destruct (length (labels st) <=? 1); exact Hdata.
  - (* Select *)
    split; [exists canvas; split; assumption|].
    split; [|exact Hdata]. exists value. split; [reflexivity | exact Hen].
  - (* ClickBrush *)
    split; [exists canvas; split; assumption|]. split; assumption.
Qed.

Lemma mount_page_invariant (canvas : Canvas) :
  wellFormed canvas -> PageInvariant (mount canvas None None).
Proof.
  intros Hwf. split; [apply mount_invariant|].
  split; [eexists; split; [reflexivity | apply fillWhite_wellFormed; exact Hwf]|].
  split; [exists "circle"; split; [reflexivity | left]|].
  split; [reflexivity|]. split; constructor.
Qed.

Lemma reachable_page_invariant (st : State) : reachable st -> PageInvariant st.
Proof.
  induction 1 as [canvas Hwf | a st Hst IH Hen]; [apply mount_page_invariant; exact Hwf|].
  apply step_page_invariant; assumption.
Qed.




(** ** Batches of the data set *)

(** [tf.concat] along axis 0 succeeds exactly when the tensors agree
    outside axis 0, and then stacks them. *)
Lemma concat0_ok (t : Tensor) (ts : list Tensor) (a : nat) (inner : list nat) :
  shape t = a :: inner ->
  Forall (fun u => exists b, shape u = b :: inner) ts ->
  concat0 (t :: ts) =
    Ok {| shape := sum_list (map (fun u => hd 0 (shape u)) (t :: ts)) :: inner;
          values := flat_map values (t :: ts) |}.
Proof.
  intros Ht Hts. unfold concat0. rewrite Ht.
  assert (Hall : forallb (fun u => bool_decide (tail (shape u) = inner /\ shape u <> []))
                   (t :: ts) = true).
  { apply forallb_forall. intros u Hu. apply bool_decide_eq_true.
    destruct Hu as [<- | Hu].
    - rewrite Ht. split; [reflexivity | discriminate].
    - rewrite Forall_forall in Hts. apply list_elem_of_In in Hu.
      destruct (Hts u Hu) as [b ->]. split; [reflexivity | discriminate]. }
  rewrite Hall. reflexivity.
Qed.

Lemma concat0_inv (tensors : list Tensor) (Y : Tensor) :
  concat0 tensors = Ok Y ->
  exists inner,
    shape Y = sum_list (map (fun u => hd 0 (shape u)) tensors) :: inner /\
    forall u, u ∈ tensors -> exists b, shape u = b :: inner.
Proof.
  unfold concat0. destruct tensors as [|t ts]; [discriminate|].
  destruct (shape t) as [|a inner] eqn:Ht; [discriminate|].
  destruct (forallb _ (t :: ts)) eqn:Hall; [|discriminate].
  intros [= <-]. exists inner. split; [reflexivity|].
  intros u Hu. apply list_elem_of_In in Hu.
  rewrite forallb_forall in Hall. specialize (Hall u Hu).
  apply bool_decide_eq_true in Hall. destruct Hall as [Htail Hne].
  destruct (shape u) as [|b rest]; [congruence|]. simpl in Htail. subst rest.
  exists b. reflexivity.
Qed.

Lemma sum_heads_ones (ts : list Tensor) :
  Forall (fun u => hd 0 (shape u) = 1) ts ->
  sum_list (map (fun u => hd 0 (shape u)) ts) = length ts.
Proof.
  induction 1 as [|u ts Hu _ IH]; [reflexivity|]. simpl. rewrite Hu, IH. reflexivity.
Qed.

Lemma oneHotTarget_shape (y : Tensor) :
  oneHotTarget y -> shape y = [1; targetWidth y] /\ 0 < targetWidth y.
Proof. intros (w & k & Hk & ->). unfold targetWidth. simpl. split; [reflexivity | lia]. Qed.

(** The inputs of a data set that is not empty stack to [N, 28, 28, 1]. *)
Lemma concat0_inputs (d : Dataset) :
  DatasetInvariant d -> xs d <> [] ->
  exists X, concat0 (xs d) = Ok X /\ shape X = [length (xs d); 28; 28; 1].
Proof.
  intros (_ & Hxs & _) Hne. destruct (xs d) as [|t ts]; [congruence|].
  apply Forall_cons in Hxs. destruct Hxs as [(Ht & _) Hts].
  rewrite (concat0_ok t ts 1 [28; 28; 1] Ht).
  - eexists. split; [reflexivity|]. cbn [shape].
    rewrite sum_heads_ones; [reflexivity|].
    constructor; [rewrite Ht; reflexivity|].
    eapply Forall_impl; [exact Hts|]. intros u (Hu & _). rewrite Hu. reflexivity.
  - eapply Forall_impl; [exact Hts|]. intros u (Hu & _). exists 1. exact Hu.
Qed.

(** The targets stack exactly when they all have one width [c], and then
    to [N, c]. *)
Lemma concat0_targets (d : Dataset) (c : nat) :
  DatasetInvariant d -> ys d <> [] ->
  (forall y, y ∈ ys d -> targetWidth y = c) ->
  exists Y, concat0 (ys d) = Ok Y /\ shape Y = [length (ys d); c].
Proof.
  intros (_ & _ & Hys) Hne Hwidth. destruct (ys d) as [|t ts]; [congruence|].
  assert (Hshape : forall y, y ∈ t :: ts -> shape y = [1; c]).
  { intros y Hy. rewrite Forall_forall in Hys.
    destruct (oneHotTarget_shape y (Hys y Hy)) as [-> _]. rewrite (Hwidth y Hy). reflexivity. }
  rewrite (concat0_ok t ts 1 [c]).
  - eexists. split; [reflexivity|]. cbn [shape].
    rewrite sum_heads_ones; [reflexivity|].
    apply Forall_forall. intros y Hy. rewrite (Hshape y Hy). reflexivity.
  - apply Hshape. left.
  - apply Forall_forall. intros y Hy. exists 1. apply Hshape. right. exact Hy.
Qed.

Lemma concat0_targets_inv (d : Dataset) (Y : Tensor) :
  DatasetInvariant d -> concat0 (ys d) = Ok Y ->
  exists c, shape Y = [length (ys d); c] /\ forall y, y ∈ ys d -> targetWidth y = c.
Proof.
  intros (_ & _ & Hys) HY. destruct (concat0_inv _ _ HY) as (inner & Hshape & Hall).
  rewrite Forall_forall in Hys.
  destruct (ys d) as [|t ts] eqn:Hd; [discriminate|].
  destruct (oneHotTarget_shape t (Hys t ltac:(left))) as [Ht _].
  destruct (Hall t ltac:(left)) as [b Hb]. rewrite Ht in Hb. injection Hb as <- <-.
  exists (targetWidth t). split.
  - rewrite Hshape, sum_heads_ones; [reflexivity|].
    apply Forall_forall. intros y Hy.
    destruct (oneHotTarget_shape y (Hys y Hy)) as [-> _]. reflexivity.
  - intros y Hy. destruct (Hall y Hy) as [b Hb].
    destruct (oneHotTarget_shape y (Hys y Hy)) as [Hy' _]. rewrite Hy' in Hb.
    injection Hb as _ Hw. exact Hw.
Qed.

(** ** Training on the data set of the page *)

(** With inputs of shape [N, 28, 28, 1] and targets as wide as the output
    of the model, [fit] passes its checks and its outcome is that of the
    optimiser. *)
Lemma fit_shapes_ok (backend : Backend) (n N : nat) (X Y : Tensor) :
  shape X = [N; 28; 28; 1] -> shape Y = [N; n] ->
  fit backend (buildModel n) X Y =
    match optimise backend (buildModel n) X Y with
    | FitCompletes w => (withWeights (buildModel n) w, Ok ())
    | FitThrows w msg => (withWeights (buildModel n) w, Throw msg)
    end.
Proof.
  intros HX HY. unfold fit. simpl (compiled (buildModel n)). cbv iota.
  rewrite (bool_decide_eq_true_2
             (Some (tail (shape X)) = inputShapeOf (buildModel n) /\ shape X <> []))
    by (rewrite HX; split; [reflexivity | discriminate]).
  rewrite (bool_decide_eq_true_2 (shape Y = [hd 0 (shape X); outputWidth (buildModel n)]))
    by (rewrite HX, HY; reflexivity).
  simpl negb. cbv iota.
  destruct (optimise backend (buildModel n) X Y); reflexivity.
Qed.

(** With targets of another width, [fit] throws before the optimiser
    runs, and the model is as [buildModel] made it. *)
Lemma fit_target_mismatch (backend : Backend) (n N N' c : nat) (X Y : Tensor) :
  shape X = [N; 28; 28; 1] -> shape Y = [N'; c] -> c <> n ->
  exists msg, fit backend (buildModel n) X Y = (buildModel n, Throw msg).
Proof.
  intros HX HY Hc. unfold fit. simpl (compiled (buildModel n)). cbv iota.
  rewrite (bool_decide_eq_true_2
             (Some (tail (shape X)) = inputShapeOf (buildModel n) /\ shape X <> []))
    by (rewrite HX; split; [reflexivity | discriminate]).
  rewrite (bool_decide_eq_false_2 (shape Y = [hd 0 (shape X); outputWidth (buildModel n)]))
    by (rewrite HX, HY; intros [= _ Heq]; apply Hc; exact Heq).
  eexists. reflexivity.
Qed.

(** X4.  training on a consistent data set.  When the data set is not empty,
    has at least as many examples as there are labels, and every target was
    recorded while the label set had its present size, the two
    concatenations succeed, [fit] passes its shape checks, and the run ends
    as the optimiser does: "Training complete!" with the fitted model, or
    "Training failed" with the message of the optimiser. *)
Theorem train_consistent_dataset (backend : Backend) (st : State) :
  DatasetInvariant (datasetRef st) ->
  xs (datasetRef st) <> [] ->
  length (labels st) <= length (xs (datasetRef st)) ->
  (forall y, y ∈ ys (datasetRef st) -> targetWidth y = length (labels st)) ->
  exists X Y,
    concat0 (xs (datasetRef st)) = Ok X /\ shape X = [length (xs (datasetRef st)); 28; 28; 1] /\
    concat0 (ys (datasetRef st)) = Ok Y /\
    shape Y = [length (xs (datasetRef st)); length (labels st)] /\
    train backend st =
      match optimise backend (buildModel (length (labels st))) X Y with
      | FitCompletes w =>
          setStatus "Training complete!"
            (setModel (Some (withWeights (buildModel (length (labels st))) w)) st)
      | FitThrows w msg =>
          setStatus ("Training failed: " +:+ msg)
            (setModel (Some (withWeights (buildModel (length (labels st))) w)) st)
      end.
Proof.
  intros Hd Hne Henough Hwidth.
  destruct (concat0_inputs _ Hd Hne) as (X & HX & HsX).
  assert (Hys : ys (datasetRef st) <> []).
  { destruct Hd as (Hlen & _). intros Hnil. rewrite Hnil in Hlen.
    destruct (xs (datasetRef st)); [congruence | discriminate]. }
  destruct (concat0_targets _ _ Hd Hys Hwidth) as (Y & HY & HsY).
  rewrite <- (proj1 Hd) in HsY.
  exists X, Y. repeat (split; [assumption|]).
  rewrite (train_unfold backend st), (enough_examples st Henough), HX, HY.
  rewrite (fit_shapes_ok backend _ _ X Y HsX HsY).
  destruct (optimise backend (buildModel (length (labels st))) X Y); reflexivity.
Qed.

(** X5.  training on stale targets.  When some target of the data set was
    recorded while the label set had another size than now, [train] never
    completes, whatever the optimiser would do: it stops at the count, or
    it reports "Training failed" with the message of a concatenation and
    the previous model live, or with the message of the target check of
    [fit] and the unfitted model built for the run live. *)
Theorem train_stale_targets (backend : Backend) (st : State) (y : Tensor) :
  DatasetInvariant (datasetRef st) ->
  y ∈ ys (datasetRef st) -> targetWidth y <> length (labels st) ->
  (train backend st =
     setStatus ("Need at least 1 example per class (" +:+
                showNat (length (labels st)) +:+ " total)") st) \/
  (exists msg, train backend st = setStatus ("Training failed: " +:+ msg) st) \/
  (exists msg, train backend st =
     setStatus ("Training failed: " +:+ msg)
       (setModel (Some (buildModel (length (labels st)))) st)).
Proof.
  intros Hd Hy Hstale. rewrite (train_unfold backend st).
  destruct (length (xs (datasetRef st)) <? length (labels st)); [left; reflexivity|].
  right.
  destruct (concat0 (xs (datasetRef st))) as [X|msg] eqn:HX; [|left; eexists; reflexivity].
  destruct (concat0 (ys (datasetRef st))) as [Y|msg] eqn:HY; [|left; eexists; reflexivity].
  right.
  assert (Hne : xs (datasetRef st) <> []) by (intros Hnil; rewrite Hnil in HX; discriminate).
  destruct (concat0_inputs _ Hd Hne) as (X' & HX' & HsX). rewrite HX in HX'.
  injection HX' as <-.
  destruct (concat0_targets_inv _ _ Hd HY) as (c & HsY & Hall).
  destruct (fit_target_mismatch backend (length (labels st)) _ _ c X Y HsX HsY)
    as (msg & ->); [rewrite <- (Hall y Hy); exact Hstale|].
  exists msg. reflexivity.
Qed.

(** ** Adding and removing labels *)

Lemma indexOfFrom_app_l {A : Type} (eqb : A -> A -> bool) (l1 l2 : list A) (x y : A) (i : Z) :
  y ∈ l1 -> eqb y x = true ->
  indexOfFrom eqb (l1 ++ l2) x i = indexOfFrom eqb l1 x i.
Proof.
  revert i. induction l1 as [|a l1 IH]; intros i Hin Hy; [inversion Hin|].
  simpl. destruct (eqb a x) eqn:Ha; [reflexivity|].
  apply IH; [|exact Hy]. inversion Hin; subst; [congruence | assumption].
Qed.

Lemma indexOfFrom_app_r {A : Type} (eqb : A -> A -> bool) (l1 l2 : list A) (x : A) (i : Z) :
  (forall y, y ∈ l1 -> eqb y x = false) ->
  indexOfFrom eqb (l1 ++ l2) x i = indexOfFrom eqb l2 x (i + Z.of_nat (length l1))%Z.
Proof.
  revert i. induction l1 as [|a l1 IH]; intros i Hnone; simpl.
  - f_equal. lia.
  - rewrite (Hnone a) by left. rewrite IH; [f_equal; lia|].
    intros y Hy. apply Hnone. right. exact Hy.
Qed.

(** X7.  adding a label.  A dismissed prompt, an empty answer and a label
    that is already there change nothing.  Any other answer is appended
    and becomes the current label: it gets the next index, and every label
    that was there keeps its index, so the targets recorded so far keep
    their meaning. *)
Theorem addLabel_keeps_indices (answer : option string) (st : State) :
  ((answer = None \/ answer = Some "" \/ exists l, answer = Some l /\ l ∈ labels st) ->
   addLabel answer st = st) /\
  (forall l, answer = Some l -> l <> "" -> l ∉ labels st ->
     addLabel answer st = setCurrentLabel (Some l) (setLabels (labels st ++ [l]) st) /\
     labelIndex (labels (addLabel answer st)) (Some l) = Z.of_nat (length (labels st)) /\
     forall x, x ∈ labels st ->
       labelIndex (labels (addLabel answer st)) (Some x) = labelIndex (labels st) (Some x)).
Proof.
  split.
  - intros [-> | [-> | (l & -> & Hin)]]; [reflexivity | reflexivity|].
    unfold addLabel. rewrite (bool_decide_eq_true_2 _ Hin).
    rewrite andb_false_r. reflexivity.
  - intros l -> Hne Hnew.
    assert (Hadd : addLabel (Some l) st
                   = setCurrentLabel (Some l) (setLabels (labels st ++ [l]) st)).
    { unfold addLabel. rewrite (bool_decide_eq_false_2 _ Hne).
      rewrite (bool_decide_eq_false_2 _ Hnew). reflexivity. }
    rewrite Hadd. cbn [labels setCurrentLabel setLabels labelIndex]. unfold indexOf.
    split; [reflexivity|]. split.
    + rewrite indexOfFrom_app_r.
      * simpl. rewrite String.eqb_refl. lia.
      * intros y Hy. apply String.eqb_neq. intros ->. exact (Hnew Hy).
    + intros x Hx. apply (indexOfFrom_app_l String.eqb _ _ x x); [exact Hx|].
      apply String.eqb_refl.
Qed.

Lemma addLabel_keeps_indices_witness :
  labels (addLabel (Some "triangle") Sample.trained) = ["circle"; "square"; "triangle"] /\
  labelIndex (labels (addLabel (Some "triangle") Sample.trained)) (Some "triangle") = 2%Z /\
  addLabel (Some "square") Sample.trained = Sample.trained.
Proof.
  destruct (addLabel_keeps_indices (Some "triangle") Sample.trained) as [_ Hnew].
  destruct (Hnew "triangle" eq_refl) as (Hadd & Hidx & _).
  - discriminate.
  - apply (bool_decide_unpack _). vm_compute. reflexivity.
  - split; [rewrite Hadd; vm_compute; reflexivity|].
    split; [rewrite Hidx; vm_compute; reflexivity|].
    destruct (addLabel_keeps_indices (Some "square") Sample.trained) as [Hsame _].
    apply Hsame. right. right. exists "square". split; [reflexivity|].
    apply (bool_decide_unpack _). vm_compute. reflexivity.
Defined.

(** Filtering the current label out of a list without duplicates deletes
    its position. *)
Lemma filter_current_delete (ls : list string) (c : string) (k : nat) :
  NoDup ls -> ls !! k = Some c ->
  filter (fun l => Some l ≠ Some c) ls = delete k ls.
Proof.
  intros Hnd. revert k. induction Hnd as [|a rest Hnotin Hnd IH]; intros k Hk; [discriminate|].
  destruct k as [|k]; simpl in Hk.
  - injection Hk as ->. rewrite filter_cons_False by (intros H; apply H; reflexivity).
    simpl. clear IH. induction rest as [|b rest IH]; [reflexivity|].
    rewrite filter_cons_True.
    + f_equal. apply IH.
      * intros Hin. apply Hnotin. right. exact Hin.
      * inversion Hnd; assumption.
    + intros [= ->]. apply Hnotin. left.
  - rewrite filter_cons_True.
    + simpl. f_equal. apply IH. exact Hk.
    + intros [= ->]. apply Hnotin. eapply list_elem_of_lookup_2. exact Hk.
Qed.

(** With at least two labels, no duplicates and the current label at
    position [k], [removeLabel] deletes position [k]. *)
Lemma removeLabel_delete (st : State) (c : string) (k : nat) :
  NoDup (labels st) -> 2 <= length (labels st) ->
  currentLabel st = Some c -> labels st !! k = Some c ->
  removeLabel st =
    setCurrentLabel (head (delete k (labels st))) (setLabels (delete k (labels st)) st).
Proof.
  intros Hnd Hlen Hcur Hk. unfold removeLabel.
  destruct (Nat.leb_spec (length (labels st)) 1) as [Hle|_]; [lia|].
  rewrite Hcur, (filter_current_delete (labels st) c k Hnd Hk). reflexivity.
Qed.

(** X8.  removing a label.  With at least two labels, no duplicates and the
    current label at position [k], [removeLabel] deletes position [k] and
    makes the first remaining label the current one: the labels before [k]
    keep their index and the labels after [k] move down by one.  Nothing
    else of the state changes, the data set included. *)
Theorem removeLabel_deletes_current (st : State) (c : string) (k : nat) :
  NoDup (labels st) -> 2 <= length (labels st) ->
  currentLabel st = Some c -> labels st !! k = Some c ->
  removeLabel st =
    setCurrentLabel (head (delete k (labels st))) (setLabels (delete k (labels st)) st) /\
  length (labels (removeLabel st)) = length (labels st) - 1 /\
  (c ∉ labels (removeLabel st)) /\
  (forall j, j < k -> labels (removeLabel st) !! j = labels st !! j) /\
  (forall j, k <= j -> labels (removeLabel st) !! j = labels st !! S j).
Proof.
  intros Hnd Hlen Hcur Hk.
  rewrite (removeLabel_delete st c k Hnd Hlen Hcur Hk).
  cbn [labels setCurrentLabel setLabels].
  split; [reflexivity|]. split.
  { rewrite length_delete; [reflexivity|]. rewrite Hk. eauto. }
  split.
  { intros Hin. apply list_elem_of_lookup in Hin. destruct Hin as [j Hj].
    destruct (Nat.lt_ge_cases j k) as [Hlt|Hge].
    - rewrite list_lookup_delete_lt in Hj by exact Hlt.
      pose proof (NoDup_lookup _ _ _ _ Hnd Hj Hk). lia.
    - rewrite list_lookup_delete_ge in Hj by exact Hge.
      pose proof (NoDup_lookup _ _ _ _ Hnd Hj Hk). lia. }
  split.
  - intros j Hj. apply list_lookup_delete_lt. exact Hj.
  - intros j Hj. apply list_lookup_delete_ge. exact Hj.
Qed.

Lemma removeLabel_deletes_current_witness :
  labels (removeLabel Sample.threeClasses) = ["circle"; "square"] /\
  currentLabel (removeLabel Sample.threeClasses) = Some "circle" /\
  datasetRef (removeLabel Sample.threeClasses) = datasetRef Sample.threeClasses.
Proof.
  assert (Hnd : NoDup (labels Sample.threeClasses))
    by (apply (bool_decide_unpack _); vm_compute; reflexivity).
  assert (Hlen : 2 <= length (labels Sample.threeClasses)) by (vm_compute; lia).
  destruct (removeLabel_deletes_current Sample.threeClasses "triangle" 2 Hnd Hlen
              eq_refl eq_refl) as (Hrm & _).
  rewrite Hrm. repeat split.
Defined.

(** ** Targets and what they decode to *)

(** The entries of a one-hot row, as finite numbers. *)
Lemma oneHot_values (k w : nat) :
  values (oneHotVector (Z.of_nat k) w)
  = map Fin (map (fun j => if (Z.of_nat j =? Z.of_nat k)%Z then 1%Q else 0%Q) (seq 0 w)).
Proof.
  unfold oneHotVector. cbn [values]. rewrite map_map. apply map_ext.
  intros j. destruct (Z.of_nat j =? Z.of_nat k)%Z; reflexivity.
Qed.

Lemma oneHot_lookup (k w j : nat) :
  j < w ->
  map (fun j => if (Z.of_nat j =? Z.of_nat k)%Z then 1%Q else 0%Q) (seq 0 w) !! j
  = Some (if (Z.of_nat j =? Z.of_nat k)%Z then 1%Q else 0%Q).
Proof.
  intros Hj. rewrite list_lookup_fmap, lookup_seq_lt by exact Hj. reflexivity.
Qed.

(** X10.  decoding a target.  The position of the maximum of the one-hot row
    of position [k] among [w] classes, found the way [predict] finds it, is
    [k]: a target decodes to the label it was recorded under for as long as
    that label keeps its position.  The row is what [tf.oneHot] gives
    whenever there are at least two classes. *)
Theorem oneHot_decodes (ls : list string) (k w : nat) :
  k < w ->
  (2 <= w -> oneHot (Z.of_nat k) w = Ok (oneHotVector (Z.of_nat k) w)) /\
  indexOf strictEq (values (expandDims0 (oneHotVector (Z.of_nat k) w)))
          (Math_max (values (expandDims0 (oneHotVector (Z.of_nat k) w)))) = Z.of_nat k /\
  at_ ls (indexOf strictEq (values (expandDims0 (oneHotVector (Z.of_nat k) w)))
            (Math_max (values (expandDims0 (oneHotVector (Z.of_nat k) w))))) = ls !! k.
Proof.
  intros Hk. split; [apply oneHot_ok|]. cbn [values expandDims0]. rewrite oneHot_values.
  assert (Harg : indexOf strictEq
            (map Fin (map (fun j => if (Z.of_nat j =? Z.of_nat k)%Z then 1%Q else 0%Q) (seq 0 w)))
            (Math_max
              (map Fin (map (fun j => if (Z.of_nat j =? Z.of_nat k)%Z then 1%Q else 0%Q)
                            (seq 0 w)))) = Z.of_nat k).
  { apply (argmax_first _ k 1%Q).
    - rewrite oneHot_lookup by exact Hk. rewrite Z.eqb_refl. reflexivity.
    - intros j qj Hj.
      assert (Hjw : j < w).
      { apply lookup_lt_Some in Hj. rewrite length_map, length_seq in Hj. exact Hj. }
      rewrite oneHot_lookup in Hj by exact Hjw. injection Hj as <-.
      destruct (Z.of_nat j =? Z.of_nat k)%Z; lra.
    - intros j qj Hjk Hj. rewrite oneHot_lookup in Hj by lia. injection Hj as <-.
      destruct (Z.eqb_spec (Z.of_nat j) (Z.of_nat k)) as [Heq|_]; [lia | lra]. }
  rewrite Harg. split; [reflexivity | apply at_nat].
Qed.

Lemma oneHot_decodes_witness :
  oneHot 1 3 = Ok (oneHotVector 1 3) /\
  at_ ["circle"; "square"; "triangle"]
      (indexOf strictEq (values (expandDims0 (oneHotVector 1 3)))
         (Math_max (values (expandDims0 (oneHotVector 1 3))))) = Some "square".
Proof.
  assert (H : 1 < 3) by lia.
  destruct (oneHot_decodes ["circle"; "square"; "triangle"] 1 3 H) as (Hrow & _ & Hlabel).
  split; [apply Hrow; lia | exact Hlabel].
Defined.

(** X9.  removing a label and adding another.  After the current label at
    position [k] is removed and a new label is added, the label set has its
    old size again, so the old targets have the width [train] expects; the
    labels before [k] are where they were, but every position from [k] on
    holds another label than before: the targets recorded for those
    positions now stand for other labels. *)
Theorem remove_then_add_shifts_labels (st : State) (c l : string) (k : nat) :
  NoDup (labels st) -> 2 <= length (labels st) ->
  currentLabel st = Some c -> labels st !! k = Some c ->
  l <> "" -> l ∉ labels st ->
  let st' := addLabel (Some l) (removeLabel st) in
  labels st' = delete k (labels st) ++ [l] /\
  length (labels st') = length (labels st) /\
  datasetRef st' = datasetRef st /\
  (forall j, j < k -> labels st' !! j = labels st !! j) /\
  (forall j x, k <= j -> labels st !! j = Some x ->
     exists x', labels st' !! j = Some x' /\ x' <> x).
Proof.
  intros Hnd Hlen Hcur Hk Hne Hnew st'.
  pose proof (removeLabel_delete st c k Hnd Hlen Hcur Hk) as Hrm.
  assert (Hnew' : l ∉ labels (removeLabel st)).
  { rewrite Hrm. cbn [labels setCurrentLabel setLabels]. intros Hin.
    apply Hnew. eapply list_elem_of_delete_inv. exact Hin. }
  assert (Hadd : st' = setCurrentLabel (Some l)
                         (setLabels (labels (removeLabel st) ++ [l]) (removeLabel st))).
  { unfold st', addLabel. rewrite (bool_decide_eq_false_2 _ Hne).
    rewrite (bool_decide_eq_false_2 _ Hnew'). reflexivity. }
  assert (Hlabels : labels st' = delete k (labels st) ++ [l]).
  { rewrite Hadd, Hrm. reflexivity. }
  assert (Hdel : length (delete k (labels st)) = length (labels st) - 1).
  { rewrite length_delete; [reflexivity|]. rewrite Hk. eauto. }
  split; [exact Hlabels|]. split.
  { rewrite Hlabels, length_app, Hdel. simpl. lia. }
  split; [rewrite Hadd, Hrm; reflexivity|]. split.
  - intros j Hj. rewrite Hlabels.
    assert (Hjlen : j < length (delete k (labels st))).
    { apply lookup_lt_Some in Hk. lia. }
    rewrite lookup_app_l by exact Hjlen. apply list_lookup_delete_lt. exact Hj.
  - intros j x Hj Hx. rewrite Hlabels.
    pose proof (lookup_lt_Some _ _ _ Hx) as Hjn.
    destruct (Nat.lt_ge_cases (S j) (length (labels st))) as [Hin|Hlast].
    + rewrite lookup_app_l by lia. rewrite list_lookup_delete_ge by exact Hj.
      destruct (lookup_lt_is_Some_2 (labels st) (S j) Hin) as [x' Hx'].
      exists x'. split; [exact Hx'|]. intros ->.
      pose proof (NoDup_lookup _ _ _ _ Hnd Hx Hx'). lia.
    + rewrite lookup_app_r by lia.
      replace (j - length (delete k (labels st))) with 0 by lia.
      exists l. split; [reflexivity|]. intros ->.
      apply Hnew. eapply list_elem_of_lookup_2. exact Hx.
Qed.

Lemma remove_then_add_shifts_labels_witness :
  let st := step (Select "circle") Sample.threeClasses in
  labels (addLabel (Some "star") (removeLabel st)) = ["square"; "triangle"; "star"] /\
  labels st = ["circle"; "square"; "triangle"].
Proof.
  intros st.
  assert (Hnd : NoDup (labels st)) by (apply (bool_decide_unpack _); vm_compute; reflexivity).
  assert (Hlen : 2 <= length (labels st)) by (vm_compute; lia).
  assert (Hnew : "star" ∉ labels st) by (apply (bool_decide_unpack _); vm_compute; reflexivity).
  assert (Hne : "star" <> "") by discriminate.
  destruct (remove_then_add_shifts_labels st "circle" "star" 0 Hnd Hlen eq_refl eq_refl
              Hne Hnew) as (Hlabels & _).
  split; [rewrite Hlabels; vm_compute; reflexivity | vm_compute; reflexivity].
Defined.

(** ** More on persistence *)

(** X11.  loading twice.  A second [loadModel] right after a first one changes
    nothing: what a load installs depends on the two stores only, and a
    load does not write to them. *)
Theorem loadModel_idempotent (st : State) : loadModel (loadModel st) = loadModel st.
Proof.
  rewrite (loadModel_cases (loadModel st)).
  destruct (loadModel_frame st) as (m & ls & c & s & Hframe).
  assert (Hsm : savedModel (loadModel st) = savedModel st) by (rewrite Hframe; reflexivity).
  assert (Hsl : savedLabels (loadModel st) = savedLabels st) by (rewrite Hframe; reflexivity).
  rewrite Hsm, Hsl. rewrite (loadModel_cases st).
  destruct (savedModel st) as [a|]; [|reflexivity].
  destruct (parseSavedLabels (savedLabels st)) as [[|[|first rest]]|msg]; reflexivity.
Qed.

(** X12.  what "No saved model found" means.  When a model is stored,
    [loadModel] installs it, without compile arguments, whatever the label
    store holds; it says "Model loaded from IndexedDB" unless the stored
    label text does not parse, and then it says "No saved model found"
    although the stored model is now the live one.  When no model is
    stored, only the status line changes. *)
Theorem loadModel_installs_stored_model (st : State) :
  (forall a, savedModel st = Some a ->
     model (loadModel st) = Some (modelOf a) /\
     compiled (modelOf a) = None /\
     (savedLabels st = Some Unparsable ->
        loadModel st = setStatus "No saved model found" (setModel (Some (modelOf a)) st)) /\
     (savedLabels st <> Some Unparsable ->
        status (loadModel st) = "Model loaded from IndexedDB")) /\
  (savedModel st = None -> loadModel st = setStatus "No saved model found" st).
Proof.
  rewrite (loadModel_cases st). split.
  - intros a ->. split.
    { destruct (parseSavedLabels (savedLabels st)) as [[|[|first rest]]|msg]; reflexivity. }
    split; [reflexivity|]. split.
    + intros ->. reflexivity.
    + intros Hparse.
      destruct (savedLabels st) as [[| |[|[|first rest]]]|]; try reflexivity. congruence.
  - intros ->. reflexivity.
Qed.

(** X13.  a save that fails half way.  [saveModel] writes the model first and
    the labels second.  When the first write fails the stores are as
    before; when only the second fails, the stored model is already the
    live model while the stored labels are still those of the previous
    save, and a later load pairs the two. *)
Theorem saveModel_partial_failure (faults : StoreFaults) (st : State)
    (m : LayersModel) (msg : string) :
  model st = Some m ->
  (modelWrite faults = Some msg ->
     saveModel faults st = setStatus ("Save failed: " +:+ msg) st) /\
  (modelWrite faults = None -> labelsWrite faults = Some msg ->
     saveModel faults st
       = setStatus ("Save failed: " +:+ msg) (setSavedModel (Some (artifactsOf m)) st) /\
     model (loadModel (saveModel faults st)) = Some (modelOf (artifactsOf m)) /\
     (forall first rest,
        savedLabels st = Some (Parses (StringArray (first :: rest))) ->
        labels (loadModel (saveModel faults st)) = first :: rest)).
Proof.
  intros Hm. unfold saveModel. rewrite Hm.
  unfold tryCatch, mbind, Eff_bind, write, throw, update. split.
  - intros ->. reflexivity.
  - intros -> ->. split; [reflexivity|]. rewrite loadModel_cases.
    cbn [savedModel savedLabels setStatus setSavedModel].
    split.
    + destruct (parseSavedLabels (savedLabels st)) as [[|[|first rest]]|e]; reflexivity.
    + intros first rest ->. reflexivity.
Qed.

Lemma saveModel_partial_failure_witness :
  let st := step (ClickAddLabel (Some "triangle")) (saveModel noFaults Sample.trained) in
  let faults := {| modelWrite := None; labelsWrite := Some "QuotaExceededError" |} in
  status (saveModel faults st) = "Save failed: QuotaExceededError" /\
  labels st = ["circle"; "square"; "triangle"] /\
  labels (loadModel (saveModel faults st)) = ["circle"; "square"].
Proof.
  intros st faults.
  destruct (model st) as [m|] eqn:Hm; [|vm_compute in Hm; discriminate].
  destruct (saveModel_partial_failure faults st m "QuotaExceededError" Hm)
    as [_ Hsecond].
  destruct (Hsecond eq_refl eq_refl) as (Hsave & _ & Hlabels).
  split; [rewrite Hsave; reflexivity|].
  split; [vm_compute; reflexivity|].
  apply Hlabels. vm_compute. reflexivity.
Defined.

(** ** More on inference *)

Lemma fold_max2_NaN (arr : list number) : fold_left max2 arr NaN = NaN.
Proof. induction arr as [|a arr IH]; [reflexivity|]. simpl. exact IH. Qed.

Lemma fold_max2_has_NaN (arr : list number) (a : number) :
  NaN ∈ arr -> fold_left max2 arr a = NaN.
Proof.
  revert a. induction arr as [|b arr IH]; intros a Hin; [inversion Hin|].
  simpl. inversion Hin as [|? ? ? Hin']; subst.
  - replace (max2 a NaN) with NaN by (destruct a; reflexivity). apply fold_max2_NaN.
  - apply IH. exact Hin'.
Qed.

Lemma indexOf_NaN (arr : list number) (i : Z) : indexOfFrom strictEq arr NaN i = (-1)%Z.
Proof.
  apply indexOfFrom_none. intros y _. destruct y; reflexivity.
Qed.

(** X14.  a vector with NaN.  When the output of the model is empty or has a
    NaN entry, [Math.max] does not give an entry that [indexOf] finds: the
    prediction is recorded with an undefined label. *)
Theorem predict_no_label_on_NaN (backend : Backend) (st : State) (m : LayersModel)
    (x : Tensor) (arr : list number) :
  model st = Some m -> canvasToTensor (canvasRef st) = Ok x ->
  forward backend m x = Ok arr ->
  arr = [] \/ NaN ∈ arr ->
  predict backend st = setPrediction (Some {| label := None; probs := arr |}) st.
Proof.
  intros Hm Hx Harr Hbad. rewrite (predict_unfold backend st m x arr Hm Hx Harr).
  assert (Hidx : indexOf strictEq arr (Math_max arr) = (-1)%Z).
  { destruct Hbad as [-> | Hnan]; [reflexivity|].
    unfold Math_max. rewrite (fold_max2_has_NaN arr _ Hnan). apply indexOf_NaN. }
  rewrite Hidx. reflexivity.
Qed.

Lemma predict_no_label_on_NaN_witness :
  let backend := {| forward := fun _ _ => Ok [Fin (1 # 2); NaN];
                    optimise := fun _ _ _ => FitCompletes [] |} in
  prediction (predict backend Sample.trained)
    = Some {| label := None; probs := [Fin (1 # 2); NaN] |}.
Proof.
  intros backend.
  destruct (model Sample.trained) as [m|] eqn:Hm; [|vm_compute in Hm; discriminate].
  destruct (canvasToTensor (canvasRef Sample.trained)) as [x|msg] eqn:Hx;
    [|vm_compute in Hx; discriminate].
  rewrite (predict_no_label_on_NaN backend Sample.trained m x [Fin (1 # 2); NaN] Hm Hx eq_refl).
  - reflexivity.
  - right. right. left.
Defined.

(** X15.  a label of the label set.  When the output of the model is a
    non-empty vector of finite numbers that is no longer than the label
    set, the label of the prediction is defined and is a label of the label
    set. *)
Theorem predict_label_in_label_set (backend : Backend) (st : State) (m : LayersModel)
    (x : Tensor) (qs : list Q) :
  model st = Some m -> canvasToTensor (canvasRef st) = Ok x ->
  forward backend m x = Ok (map Fin qs) ->
  qs <> [] -> length qs <= length (labels st) ->
  exists l, l ∈ labels st /\
    predict backend st = setPrediction (Some {| label := Some l; probs := map Fin qs |}) st.
Proof.
  intros Hm Hx Harr Hne Hlen. rewrite (predict_unfold backend st m x _ Hm Hx Harr).
  destruct (Math_max_fin qs Hne) as (q & Hq & Hin & _). rewrite Hq.
  destruct (indexOfFrom_found strictEq (map Fin qs) (Fin q) 0) as (k & y & Heq & Hk & _).
  - apply (indexOfFrom_hit strictEq _ _ 0 (Fin q)); [lia | |].
    + apply list_elem_of_fmap. exists q. split; [reflexivity | exact Hin].
    + simpl. apply Qeq_bool_iff. reflexivity.
  - lia.
  - unfold indexOf. rewrite Heq, Z.add_0_l, at_nat.
    apply lookup_lt_Some in Hk. rewrite length_map in Hk.
    destruct (lookup_lt_is_Some_2 (labels st) k ltac:(lia)) as [l Hl].
    exists l. split; [eapply list_elem_of_lookup_2; exact Hl|]. rewrite Hl. reflexivity.
Qed.

Lemma predict_label_in_label_set_witness :
  exists l, l ∈ labels Sample.threeClasses /\
    prediction (predict Sample.backend Sample.threeClasses)
      = Some {| label := Some l; probs := [Fin (1 # 10); Fin (2 # 10); Fin (7 # 10)] |}.
Proof.
  destruct (model Sample.threeClasses) as [m|] eqn:Hm; [|vm_compute in Hm; discriminate].
  destruct (canvasToTensor (canvasRef Sample.threeClasses)) as [x|msg] eqn:Hx;
    [|vm_compute in Hx; discriminate].
  destruct (predict_label_in_label_set Sample.backend Sample.threeClasses m x
              [1 # 10; 2 # 10; 7 # 10]%Q Hm Hx eq_refl) as (l & Hl & Hp).
  - discriminate.
  - vm_compute. lia.
  - exists l. split; [exact Hl|]. rewrite Hp. reflexivity.
Defined.

(** ** More on the preprocessor *)

Lemma flat_map_ext_In {A B : Type} (f g : A -> list B) (l : list A) :
  (forall a, In a l -> f a = g a) -> flat_map f l = flat_map g l.
Proof.
  induction l as [|a l IH]; intros Hfg; [reflexivity|]. simpl.
  rewrite (Hfg a) by (left; reflexivity). rewrite IH; [reflexivity|].
  intros b Hb. apply Hfg. right. exact Hb.
Qed.

Lemma flat_map_singleton {A B : Type} (f : A -> B) (l : list A) :
  flat_map (fun a => [f a]) l = map f l.
Proof. induction l as [|a l IH]; [reflexivity|]. simpl. rewrite IH. reflexivity. Qed.

(** X17.  the channel that matters.  The tensor of the canvas depends on
    the red bytes of its pixels only: two canvases of the same size whose
    pixels have the same red bytes give the same tensor, whatever their
    green, blue and alpha bytes and the state of their contexts, and so
    [addExample] records the same example and [predict] shows the same
    prediction for both.  An erased pixel, which is transparent, reads like
    a black one. *)
Theorem canvasToTensor_reads_red_channel (c1 c2 : Canvas) :
  width c1 = width c2 -> height c1 = height c2 ->
  (forall i, i < height c1 * width c1 -> redAt c1 i = redAt c2 i) ->
  canvasToTensor (Some c1) = canvasToTensor (Some c2) /\
  (forall st, datasetRef (addExample (setCanvas (Some c1) st))
              = datasetRef (addExample (setCanvas (Some c2) st))) /\
  (forall backend st, prediction (predict backend (setCanvas (Some c1) st))
                      = prediction (predict backend (setCanvas (Some c2) st))).
Proof.
  intros Hw Hh Hred.
  assert (Hpixels : fromPixels c1 1 = fromPixels c2 1).
  { unfold fromPixels. rewrite <- Hw, <- Hh. f_equal.
    apply flat_map_ext_In. intros i Hi. apply in_seq in Hi. cbn [seq map].
    rewrite !Nat.add_0_r.
    change (byteAt (rgba c1) (i * 4)) with (redAt c1 i).
    change (byteAt (rgba c2) (i * 4)) with (redAt c2 i).
    rewrite (Hred i) by lia. reflexivity. }
  assert (Hsame : canvasToTensor (Some c1) = canvasToTensor (Some c2))
    by (unfold canvasToTensor; rewrite Hpixels; reflexivity).
  split; [exact Hsame|]. split.
  - intros st. unfold addExample, tryCatch, mbind, Eff_bind, liftExc.
    cbn [canvasRef setCanvas labels currentLabel]. rewrite Hsame.
    destruct (canvasToTensor (Some c2)) as [x|msg]; [|reflexivity].
    destruct (labelIndex (labels st) (currentLabel st) =? -1)%Z; [reflexivity|].
    destruct (oneHot _ _) as [row|msg]; reflexivity.
  - intros backend st. unfold predict, tryCatch, mbind, Eff_bind, liftExc, update.
    cbn [model canvasRef setCanvas]. destruct (model st) as [m|]; [|reflexivity].
    rewrite Hsame. destruct (canvasToTensor (Some c2)) as [x|msg]; [|reflexivity].
    cbn [labels setCanvas]. destruct (forward backend m x) as [arr|msg]; reflexivity.
Qed.

Lemma canvasToTensor_reads_red_channel_witness :
  canvasToTensor (Some Pages.inked) = canvasToTensor (Some Pages.erased) /\
  rgba Pages.inked <> rgba Pages.erased.
Proof.
  split.
  - apply (canvasToTensor_reads_red_channel Pages.inked Pages.erased eq_refl eq_refl).
    intros i Hi.
    assert (Hall : Forall (fun i => redAt Pages.inked i = redAt Pages.erased i) (seq 0 16))
      by (apply (bool_decide_unpack _); vm_compute; reflexivity).
    rewrite Forall_forall in Hall. apply Hall. apply elem_of_seq. simpl in Hi. lia.
  - vm_compute. discriminate.
Defined.

(** The resize keeps any property of entries that interpolation keeps. *)
Lemma resizeBilinear_Forall (P : number -> Prop) (images : Tensor) (h w c newH newW : nat) :
  (forall a b t, P a -> P b -> (0 <= t <= 1)%Q -> P (add a (mul (sub b a) (Fin t)))) ->
  shape images = [h; w; c] -> 0 < h -> 0 < w ->
  length (values images) = h * w * c ->
  Forall P (values images) ->
  exists resized,
    resizeBilinear images (newH, newW) = Ok resized /\ Forall P (values resized).
Proof.
  intros Hlerp Hshape Hh Hw Hlen Hall. unfold resizeBilinear. rewrite Hshape.
  eexists; split; [reflexivity|]. cbn [shape values].
  apply Forall_flat_map_intro. intros r Hr. apply in_seq in Hr.
  assert (Hrow := sourceCoord_bounds h newH r Hh (proj2 Hr)).
  match goal with |- context [sourceCoord ?q h r] =>
    destruct (sourceCoord q h r) as [[rlo rhi] rfrac] end.
  destruct Hrow as (Hrlo & Hrhi & Hrfrac).
  apply Forall_flat_map_intro. intros col Hcol. apply in_seq in Hcol.
  assert (Hc := sourceCoord_bounds w newW col Hw (proj2 Hcol)).
  match goal with |- context [sourceCoord ?q w col] =>
    destruct (sourceCoord q w col) as [[clo chi] cfrac] end.
  destruct Hc as (Hclo & Hchi & Hcfrac).
  apply Forall_forall. intros v Hv. apply list_elem_of_In, in_map_iff in Hv.
  destruct Hv as (d & <- & Hd). apply in_seq in Hd.
  assert (Hget : forall a b : Z, (0 <= a < Z.of_nat h)%Z -> (0 <= b < Z.of_nat w)%Z ->
            P (get (values images) (a * Z.of_nat (w * c) + b * Z.of_nat c + Z.of_nat d))).
  { intros a b Ha Hb. unfold get, at_.
    assert (Hidx : (0 <= a * Z.of_nat (w * c) + b * Z.of_nat c + Z.of_nat d
                      < Z.of_nat (length (values images)))%Z).
    { rewrite Hlen, !Nat2Z.inj_mul.
      assert (a * (Z.of_nat w * Z.of_nat c) <= (Z.of_nat h - 1) * (Z.of_nat w * Z.of_nat c))%Z
        by (apply Z.mul_le_mono_nonneg_r; nia).
      assert (b * Z.of_nat c <= (Z.of_nat w - 1) * Z.of_nat c)%Z
        by (apply Z.mul_le_mono_nonneg_r; lia).
      assert (0 <= a * (Z.of_nat w * Z.of_nat c))%Z by nia.
      assert (0 <= b * Z.of_nat c)%Z by nia.
      lia. }
    destruct (Z.ltb_spec (a * Z.of_nat (w * c) + b * Z.of_nat c + Z.of_nat d) 0)
      as [Hneg|_]; [lia|].
    destruct (values images !! _) as [v|] eqn:Hv.
    - simpl. rewrite Forall_forall in Hall. eapply Hall, list_elem_of_lookup_2, Hv.
    - apply lookup_ge_None in Hv. lia. }
  repeat apply Hlerp; try assumption; apply Hget; assumption.
Qed.

Lemma lerp_constant (c : Q) (a b : number) (t : Q) :
  isNumber c a -> isNumber c b -> isNumber c (add a (mul (sub b a) (Fin t))).
Proof.
  intros (x & -> & Hx) (y & -> & Hy). simpl. eexists. split; [reflexivity|].
  rewrite Hx, Hy. ring.
Qed.

(** The resized image of a canvas whose pixels all have the red byte [z]. *)
Lemma uniform_resized (canvas : Canvas) (z : Z) :
  wellFormed canvas ->
  (forall i, i < height canvas * width canvas -> redAt canvas i = z) ->
  exists resized,
    resizeBilinear (divScalar (toFloat (fromPixels canvas 1)) (Fin 255)) (28, 28) = Ok resized /\
    Forall (isNumber (inject_Z z / 255)) (values resized).
Proof.
  intros (Hw & Hh & _) Hred.
  apply (resizeBilinear_Forall (isNumber (inject_Z z / 255))
           (divScalar (toFloat (fromPixels canvas 1)) (Fin 255))
           (height canvas) (width canvas) 1 28 28); auto.
  - intros a b t Ha Hb _. apply lerp_constant; assumption.
  - apply fromPixels_scaled_length.
  - unfold divScalar, toFloat, fromPixels. cbn [values].
    change (fun i : nat =>
              map (fun channel : nat => Fin (inject_Z (byteAt (rgba canvas) (i * 4 + channel))))
                  (seq 0 1))
      with (fun i : nat => [Fin (inject_Z (byteAt (rgba canvas) (i * 4 + 0)))]).
    rewrite flat_map_singleton. apply Forall_forall. intros v Hv.
    apply list_elem_of_fmap in Hv. destruct Hv as (u & -> & Hu).
    apply list_elem_of_fmap in Hu. destruct Hu as (i & -> & Hi).
    apply elem_of_seq in Hi. rewrite Nat.add_0_r.
    change (byteAt (rgba canvas) (i * 4)) with (redAt canvas i).
    rewrite (Hred i) by lia. eexists. split; [reflexivity|]. reflexivity.
Qed.

Lemma lookup_repeat {A : Type} (x : A) (n i : nat) : i < n -> repeat x n !! i = Some x.
Proof.
  revert i. induction n as [|n IH]; intros i Hi; [lia|].
  destruct i as [|i]; [reflexivity|]. simpl. apply IH. lia.
Qed.

(** X18.  a canvas of one colour.  When every pixel of a canvas has the
    same red byte, all entries of its tensor are one and the same number,
    whatever the size of the canvas: the resize keeps a constant image
    constant.  The number is 0 for the red byte 0 and 1 for the red byte
    255. *)
Theorem canvasToTensor_uniform (canvas : Canvas) (z : Z) :
  wellFormed canvas ->
  (forall i, i < height canvas * width canvas -> redAt canvas i = z) ->
  exists x q, canvasToTensor (Some canvas) = Ok x /\
              shape x = [1; 28; 28; 1] /\
              Forall (isNumber q) (values x) /\
              (z = 0%Z -> (q == 0)%Q) /\ (z = 255%Z -> (q == 1)%Q).
Proof.
  intros Hwf Hred.
  destruct (uniform_resized canvas z Hwf Hred) as (resized & Hres & Hall).
  destruct (canvasToTensor_ready canvas Hwf) as (x & Hx & (Hshape & _)).
  exists x, (inject_Z z / 255)%Q. split; [exact Hx|]. split; [exact Hshape|].
  split.
  - unfold canvasToTensor, imageSize in Hx. rewrite Hres in Hx. simpl in Hx.
    injection Hx as <-. exact Hall.
  - split; intros ->; reflexivity.
Qed.

Lemma fillWhite_red (canvas : Canvas) (i : nat) :
  i < height canvas * width canvas ->
  redAt (fillWhite canvas) i =
    match globalCompositeOperation canvas with
    | source_over => 255%Z
    | destination_out => 0%Z
    end.
Proof.
  intros Hi. unfold redAt, byteAt, fillWhite. cbn [rgba].
  rewrite lookup_repeat by lia. destruct (globalCompositeOperation canvas); reflexivity.
Qed.

Lemma canvasToTensor_uniform_witness :
  exists x q, canvasToTensor (Some Pages.erased) = Ok x /\
              Forall (isNumber q) (values x) /\ (q == 0)%Q.
Proof.
  assert (Hwf : wellFormed Pages.erased) by (unfold wellFormed; simpl; lia).
  destruct (canvasToTensor_uniform Pages.erased 0 Hwf) as (x & q & Hx & _ & Hall & Hzero & _).
  - intros i Hi.
    assert (Hzeros : Forall (fun i => redAt Pages.erased i = 0%Z) (seq 0 16))
      by (apply (bool_decide_unpack _); vm_compute; reflexivity).
    rewrite Forall_forall in Hzeros. apply Hzeros. apply elem_of_seq. simpl in Hi. lia.
  - exists x, q. split; [exact Hx|]. split; [exact Hall | apply Hzero; reflexivity].
Defined.

(** The tensor of a canvas that has just been filled. *)
Lemma filled_canvas_tensor (canvas : Canvas) :
  wellFormed canvas ->
  exists x, canvasToTensor (Some (fillWhite canvas)) = Ok x /\
            Forall (isNumber (blank (globalCompositeOperation canvas))) (values x).
Proof.
  intros Hwf.
  destruct (uniform_resized (fillWhite canvas)
              (match globalCompositeOperation canvas with
               | source_over => 255%Z
               | destination_out => 0%Z
               end)
              (fillWhite_wellFormed canvas Hwf)) as (resized & Hres & Hall).
  - intros i Hi. apply fillWhite_red. exact Hi.
  - exists (expandDims0 resized). unfold canvasToTensor, imageSize. rewrite Hres.
    split; [reflexivity|]. eapply Forall_impl; [exact Hall|].
    intros v (q & -> & Hq). exists q. split; [reflexivity|]. rewrite Hq.
    destruct (globalCompositeOperation canvas); reflexivity.
Qed.

(** X19.  a cleared canvas.  The canvas that [clearCanvas] leaves gives a
    constant tensor, and which one depends on the last stroke: the fill
    uses the compositing mode the context is in, so after a stroke of the
    black brush, or before any stroke, all 784 entries are 1, and after a
    stroke of the white brush, which erases, they are all 0.  The same
    holds of the canvas that a successful [addExample] leaves: an
    [addExample] that follows without a stroke in between records that
    constant image. *)
Theorem cleared_canvas_is_blank (st : State) (canvas : Canvas) :
  canvasRef st = Some canvas -> wellFormed canvas ->
  (exists x, canvasToTensor (canvasRef (clearCanvas st)) = Ok x /\
             prediction (clearCanvas st) = None /\
             Forall (isNumber (blank (globalCompositeOperation canvas))) (values x)) /\
  (forall pixels, length pixels = length (rgba canvas) ->
     exists x, canvasToTensor (canvasRef (clearCanvas (draw pixels st))) = Ok x /\
               Forall (isNumber match brushColor st with
                                | black => 1
                                | white => 0
                                end) (values x)) /\
  (CurrentLabelKnown st -> 2 <= length (labels st) ->
   exists x, canvasToTensor (canvasRef (addExample st)) = Ok x /\
             Forall (isNumber (blank (globalCompositeOperation canvas))) (values x) /\
             xs (datasetRef (addExample (addExample st)))
               = xs (datasetRef (addExample st)) ++ [x]).
Proof.
  intros Hc Hwf. split; [|split].
  - destruct (filled_canvas_tensor canvas Hwf) as (x & Hx & Hall).
    exists x. unfold clearCanvas, clearCanvasEff. rewrite Hc.
    cbn [fst canvasRef prediction setPrediction setCanvas].
    split; [exact Hx|]. split; [reflexivity | exact Hall].
  - intros pixels Hlen.
    set (stroked := {| width := width canvas; height := height canvas; rgba := pixels;
                       globalCompositeOperation :=
                         match brushColor st with
                         | white => destination_out
                         | black => source_over
                         end |}).
    assert (Hstroked : wellFormed stroked).
    { destruct Hwf as (Hw & Hh & Hsize). unfold wellFormed, stroked. cbn [width height rgba].
      split; [exact Hw|]. split; [exact Hh | congruence]. }
    destruct (filled_canvas_tensor stroked Hstroked) as (x & Hx & Hall).
    exists x. unfold clearCanvas, clearCanvasEff, draw. rewrite Hc.
    cbn [fst canvasRef prediction setPrediction setCanvas].
    split; [exact Hx|]. unfold stroked in Hall. cbn [globalCompositeOperation] in Hall.
    destruct (brushColor st); exact Hall.
  - intros (c & Hcl & Hcin) Htwo.
    destruct (filled_canvas_tensor canvas Hwf) as (x & Hx & Hall).
    destruct (canvasToTensor_ready canvas Hwf) as (x0 & Hx0 & _).
    rewrite <- Hc in Hx0.
    destruct (labelIndex_known (labels st) c Hcin) as (k & Hk & _).
    assert (Hadd : addExample st =
              setPrediction None
                (setCanvas (Some (fillWhite canvas))
                  (setStatus ("Added example for " +:+ dq +:+ c +:+ dq)
                    (setExamples (fun prev => <[c := plusOne (labelCount prev c)]> prev)
                      (setDataset
                         (push x0 (expandDims0 (oneHotVector (Z.of_nat k) (length (labels st))))
                               (datasetRef st)) st))))).
    { rewrite (addExample_unfold st x0 Hx0), Hcl, Hk.
      destruct (Z.eqb_spec (Z.of_nat k) (-1)); [lia|].
      rewrite (oneHot_ok _ _ Htwo), Hc. reflexivity. }
    assert (Hx' : canvasToTensor (canvasRef (addExample st)) = Ok x)
      by (rewrite Hadd; exact Hx).
    exists x. split; [exact Hx'|]. split; [exact Hall|].
    assert (Hcl' : currentLabel (addExample st) = Some c) by (rewrite Hadd; exact Hcl).
    assert (Hls : labels (addExample st) = labels st) by (rewrite Hadd; reflexivity).
    destruct (addExample_known_label (addExample st) c x Hcl')
      as (k' & _ & _ & Hd & _); [rewrite Hls; exact Hcin | rewrite Hls; exact Htwo | exact Hx' |].
    rewrite Hd. reflexivity.
Qed.

Lemma cleared_canvas_is_blank_witness :
  let st := run [ClickBrush white; Draw (repeat x00 16)] Sample.fresh in
  exists x, canvasToTensor (canvasRef (clearCanvas st)) = Ok x /\
            Forall (isNumber 0) (values x).
Proof.
  intros st.
  assert (Hwf : wellFormed {| width := 2; height := 2; rgba := repeat x00 16;
                              globalCompositeOperation := destination_out |})
    by (unfold wellFormed; simpl; lia).
  destruct (cleared_canvas_is_blank st _ eq_refl Hwf) as [(x & Hx & _ & Hall) _].
  exists x. split; [exact Hx | exact Hall].
Defined.

(** ** What every reachable state allows *)





(** X3.  the data set only grows.  No handler removes or changes a recorded
    example: a step leaves the inputs and the targets as they were, or
    appends one of each, and only [addExample] appends. *)
Theorem dataset_append_only (a : Action) (st : State) :
  exists newXs newYs,
    xs (datasetRef (step a st)) = xs (datasetRef st) ++ newXs /\
    ys (datasetRef (step a st)) = ys (datasetRef st) ++ newYs /\
    length newXs = length newYs /\ length newXs <= 1 /\
    (a <> ClickAddExample -> newXs = []).
Proof.
  assert (Hsame : forall st', datasetRef st' = datasetRef st ->
            exists newXs newYs,
              xs (datasetRef st') = xs (datasetRef st) ++ newXs /\
              ys (datasetRef st') = ys (datasetRef st) ++ newYs /\
              length newXs = length newYs /\ length newXs <= 1 /\
              (a <> ClickAddExample -> newXs = [])).
  { intros st' ->. exists [], []. rewrite !app_nil_r. repeat split. simpl. lia. }
  destruct a as [pixels| | |backend|backend|faults| |answer| |value|color]; simpl.
  - apply Hsame. unfold draw. destruct (canvasRef st); reflexivity.
  - apply Hsame. unfold clearCanvas, clearCanvasEff. destruct (canvasRef st); reflexivity.
  - destruct (addExample_frame st) as [(s & ->) | (x & c & k & cv & _ & _ & _ & _ & _ & ->)].
    + exists [], []. rewrite !app_nil_r. repeat split. simpl. lia.
    + eexists [x], [_]. split; [reflexivity|]. split; [reflexivity|].
      split; [reflexivity|]. split; [simpl; lia | congruence].
  - apply Hsame. destruct (train_frame backend st) as (m & s & ->). reflexivity.
  - apply Hsame. destruct (predict_frame backend st) as [(p & ->) | (s & ->)]; reflexivity.
  - apply Hsame. destruct (saveModel_frame faults st) as (sa & sl & s & ->). reflexivity.
  - apply Hsame. destruct (loadModel_frame st) as (m & ls & c & s & ->). reflexivity.
  - apply Hsame. unfold addLabel. destruct answer as [l|]; [|reflexivity].
    destruct (_ && _); reflexivity.
  - apply Hsame. unfold removeLabel. destruct (length (labels st) <=? 1); reflexivity.
  - apply Hsame. reflexivity.
  - apply Hsame. reflexivity.
Qed.



(** X16.  what a prediction attempt changes.  Without a live model [predict]
    only says "Train (or load) a model first".  With one, it changes the
    prediction or the status line, never both, and nothing else: after a
    failure the previous prediction stays on the page, and after a success
    the previous status line does. *)
Theorem predict_outcomes (backend : Backend) (st : State) :
  (model st = None -> predict backend st = setStatus "Train (or load) a model first" st) /\
  ((exists arr l, predict backend st = setPrediction (Some {| label := l; probs := arr |}) st) \/
   (exists s, predict backend st = setStatus s st /\
              prediction (predict backend st) = prediction st)).
Proof.
  split; [intros Hnone; unfold predict; rewrite Hnone; reflexivity|].
  unfold predict. destruct (model st) as [m|]; [|right; eexists; split; reflexivity].
  unfold tryCatch, mbind, Eff_bind, liftExc, update.
  destruct (canvasToTensor (canvasRef st)) as [x|msg]; [|right; eexists; split; reflexivity].
  destruct (forward backend m x) as [arr|msg]; [left | right].
  - eexists _, _. reflexivity.
  - eexists. split; reflexivity.
Qed.

Lemma predict_outcomes_witness :
  predict Sample.backend Sample.fresh
  = setStatus "Train (or load) a model first" Sample.fresh.
Proof.
  apply (proj1 (predict_outcomes Sample.backend Sample.fresh)). vm_compute. reflexivity.
Defined.

Lemma train_consistent_dataset_witness :
  status (train Sample.backend Sample.trained) = "Training complete!" /\
  option_map outputWidth (model (train Sample.backend Sample.trained)) = Some 2.
Proof.
  assert (Hreach : reachable Sample.trained).
  { apply reachable_run; [apply reachable_fresh | vm_compute; tauto]. }
  destruct (reachable_page_invariant _ Hreach) as (_ & _ & _ & Hd).
  destruct (train_consistent_dataset Sample.backend Sample.trained Hd)
    as (X & Y & _ & _ & _ & _ & Htrain).
  - vm_compute. discriminate.
  - vm_compute. lia.
  - apply Forall_forall. apply (bool_decide_unpack _). vm_compute. reflexivity.
  - rewrite Htrain. split; reflexivity.
Defined.

Lemma train_stale_targets_witness :
  exists msg,
    train Sample.backend Sample.threeClassesLabelRemoved
    = setStatus ("Training failed: " +:+ msg)
        (setModel (Some (buildModel 2)) Sample.threeClassesLabelRemoved).
Proof.
  assert (Hreach : reachable Sample.threeClassesLabelRemoved).
  { apply reachable_step; [|exact I].
    apply reachable_run; [apply reachable_fresh | vm_compute; tauto]. }
  destruct (reachable_page_invariant _ Hreach) as (_ & _ & _ & Hd).
  assert (Hys : ys (datasetRef Sample.threeClassesLabelRemoved)
                = [expandDims0 (oneHotVector 2 3); expandDims0 (oneHotVector 2 3);
                   expandDims0 (oneHotVector 2 3)]) by (vm_compute; reflexivity).
  destruct (train_stale_targets Sample.backend Sample.threeClassesLabelRemoved
              (expandDims0 (oneHotVector 2 3)) Hd) as [H | [(msg & H) | (msg & H)]].
  - rewrite Hys. left.
  - vm_compute. lia.
  - exfalso. apply (f_equal status) in H. vm_compute in H. discriminate.
  - exfalso. assert (Hm : model (train Sample.backend Sample.threeClassesLabelRemoved)
                          = model Sample.threeClassesLabelRemoved)
      by (rewrite H; reflexivity).
    vm_compute in Hm. discriminate.
  - exists msg. exact H.
Defined.

(** ** The epoch status line *)

(** The integer that [toFixed] prints is the nearest one, the larger of two
    nearest ones. *)
Lemma fixedInteger_nearest (x : Q) (f : nat) :
  (0 <= x)%Q ->
  (0 <= fixedInteger x f)%Z /\
  (inject_Z (fixedInteger x f) - (1 # 2) <= x * inject_Z (10 ^ Z.of_nat f))%Q /\
  (x * inject_Z (10 ^ Z.of_nat f) < inject_Z (fixedInteger x f) + (1 # 2))%Q.
Proof.
  intros Hx. unfold fixedInteger.
  set (y := (x * inject_Z (10 ^ Z.of_nat f) + (1 # 2))%Q).
  assert (Hp : (0 <= inject_Z (10 ^ Z.of_nat f))%Q).
  { change 0%Q with (inject_Z 0). rewrite <- Zle_Qle. apply Z.pow_nonneg. lia. }
  assert (Hy : (0 <= y)%Q).
  { unfold y. pose proof (Qmult_le_0_compat _ _ Hx Hp). lra. }
  split; [|split].
  - change 0%Z with (Qfloor (inject_Z 0)). apply Qfloor_resp_le. exact Hy.
  - pose proof (Qfloor_le y). unfold y in *. lra.
  - pose proof (Qlt_floor y) as H. rewrite inject_Z_plus in H.
    change (inject_Z 1) with 1%Q in H. unfold y in *. lra.
Qed.

(** The text of the thousandths from 0 to 1000. *)
Lemma digitsWithPoint_thousandths (n : nat) :
  n <= 1000 ->
  digitsWithPoint (Z.of_nat n) 3 =
    showNat (n / 1000) +:+ "." +:+ showNat (n / 100 mod 10) +:+
    showNat (n / 10 mod 10) +:+ showNat (n mod 10).
Proof.
  intros Hn.
  assert (Hall : Forall (fun n => digitsWithPoint (Z.of_nat n) 3 =
                   showNat (n / 1000) +:+ "." +:+ showNat (n / 100 mod 10) +:+
                   showNat (n / 10 mod 10) +:+ showNat (n mod 10)) (seq 0 1001)).
  { apply (bool_decide_unpack _). vm_compute. reflexivity. }
  rewrite Forall_forall in Hall. apply Hall. apply elem_of_seq. lia.
Qed.

(** An accuracy, to three places.  For a number between 0 and 1,
    [toFixed(3)] gives one digit, a point and three digits: the digits of
    the nearest number of thousandths, a half rounded up. *)
Lemma toFixed_nearest_thousandth (numberToString : Q -> string) (q : Q) :
  (0 <= q <= 1)%Q ->
  exists n : nat,
    n <= 1000 /\
    (inject_Z (Z.of_nat n) - (1 # 2) <= q * 1000 < inject_Z (Z.of_nat n) + (1 # 2))%Q /\
    toFixed numberToString (Fin q) 3 =
      showNat (n / 1000) +:+ "." +:+ showNat (n / 100 mod 10) +:+
      showNat (n / 10 mod 10) +:+ showNat (n mod 10) /\
    String.length (toFixed numberToString (Fin q) 3) = 5.
Proof.
  intros [Hq0 Hq1].
  destruct (fixedInteger_nearest q 3 Hq0) as (Hn0 & Hlo & Hhi).
  change (inject_Z (10 ^ Z.of_nat 3)) with 1000%Q in Hlo, Hhi.
  assert (Hn1 : (fixedInteger q 3 <= 1000)%Z).
  { assert (H : (inject_Z (fixedInteger q 3) < inject_Z 1001)%Q)
      by (change (inject_Z 1001) with 1001%Q; lra).
    rewrite <- Zlt_Qlt in H. lia. }
  assert (Htext : toFixed numberToString (Fin q) 3
                  = digitsWithPoint (fixedInteger q 3) 3).
  { unfold toFixed. rewrite (proj2 (Qle_bool_iff 0 q) Hq0).
    destruct (Qle_bool (inject_Z (10 ^ 21)) q) eqn:Hbig; [|reflexivity].
    apply Qle_bool_iff in Hbig.
    assert (Hone : (1 < inject_Z (10 ^ 21))%Q) by reflexivity. lra. }
  assert (Hz : fixedInteger q 3 = Z.of_nat (Z.to_nat (fixedInteger q 3))) by lia.
  assert (Hle : Z.to_nat (fixedInteger q 3) <= 1000) by lia.
  revert Hlo Hhi Htext Hle. rewrite Hz. generalize (Z.to_nat (fixedInteger q 3)).
  intros n. rewrite Nat2Z.id. intros Hlo Hhi Htext Hle.
  exists n. split; [exact Hle|]. split; [split; assumption|].
  rewrite Htext, (digitsWithPoint_thousandths n Hle). split; [reflexivity|].
  assert (Hlen : Forall (fun n => String.length
                   (showNat (n / 1000) +:+ "." +:+ showNat (n / 100 mod 10) +:+
                    showNat (n / 10 mod 10) +:+ showNat (n mod 10)) = 5) (seq 0 1001)).
  { apply (bool_decide_unpack _). vm_compute. reflexivity. }
  rewrite Forall_forall in Hlen. apply Hlen. apply elem_of_seq. lia.
Qed.

(** X23.  the accuracy of the epoch status line.  [formatEpochStatus] shows
    [acc] when it is a number and [accuracy] otherwise.  When the number
    shown lies between 0 and 1, the line ends with one digit, a point and
    three digits: those of the nearest number of thousandths, a half
    rounded up.  The epoch is counted from 1, over 10 epochs when the total
    is left out. *)
Theorem formatEpochStatus_accuracy (numberToString : Q -> string)
    (l : EpochLogs.t) (q : Q) (epoch : nat) (totalEpochs : option nat) :
  EpochLogs.acc l = Some (Fin q) \/
  (EpochLogs.acc l = None /\ EpochLogs.accuracy l = Some (Fin q)) ->
  (0 <= q <= 1)%Q ->
  exists n : nat,
    n <= 1000 /\
    (inject_Z (Z.of_nat n) - (1 # 2) <= q * 1000 < inject_Z (Z.of_nat n) + (1 # 2))%Q /\
    formatEpochStatus numberToString (Some l) epoch totalEpochs =
      "Epoch " +:+ showNat (epoch + 1) +:+ "/" +:+ showNat (default 10 totalEpochs) +:+
      " - loss: " +:+
      match EpochLogs.loss l with
      | Some x => toFixed numberToString x 4
      | None => "N/A"
      end +:+
      " acc: " +:+ showNat (n / 1000) +:+ "." +:+ showNat (n / 100 mod 10) +:+
      showNat (n / 10 mod 10) +:+ showNat (n mod 10).
Proof.
  intros Hacc Hq.
  destruct (toFixed_nearest_thousandth numberToString q Hq) as (n & Hn & Hnear & Htext & _).
  exists n. split; [exact Hn|]. split; [exact Hnear|].
  unfold formatEpochStatus.
  assert (Hsel : match EpochLogs.acc l with
                 | Some a => Some a
                 | None => EpochLogs.accuracy l
                 end = Some (Fin q)).
  { destruct Hacc as [-> | [-> ->]]; reflexivity. }
  cbv zeta. rewrite Hsel, Htext. reflexivity.
Qed.

Lemma formatEpochStatus_accuracy_witness :
  exists n : nat,
    n <= 1000 /\
    (inject_Z (Z.of_nat n) - (1 # 2) <= (8745 # 10000) * 1000
       < inject_Z (Z.of_nat n) + (1 # 2))%Q /\
    formatEpochStatus (fun _ => "")
      (Some (EpochLogs.mk (Some (Fin (1 # 4))) None (Some (Fin (8745 # 10000))))) 2 None =
      "Epoch " +:+ showNat (2 + 1) +:+ "/" +:+ showNat (default 10 None) +:+
      " - loss: " +:+ toFixed (fun _ => "") (Fin (1 # 4)) 4 +:+
      " acc: " +:+ showNat (n / 1000) +:+ "." +:+ showNat (n / 100 mod 10) +:+
      showNat (n / 10 mod 10) +:+ showNat (n mod 10).
Proof.
  apply (formatEpochStatus_accuracy (fun _ => "")
           (EpochLogs.mk (Some (Fin (1 # 4))) None (Some (Fin (8745 # 10000))))
           (8745 # 10000) 2 None).
  - right. split; reflexivity.
  - split; unfold Qle; simpl; lia.
Defined.

(** ** The prediction panel *)

(** X22.  a label added after a prediction gets a row without a number.  The
    prediction panel pairs the labels of the page with the entries of
    [probs] by index.  While a prediction is shown whose [probs] has no more
    entries than there are labels, adding a new label keeps the predicted
    label and the rows as they are and appends a row for the new label that
    reads "NaN%". *)
Theorem predictionPanel_after_addLabel (numberToString : Q -> string)
    (st : State) (p : Prediction) (l : string) :
  prediction st = Some p ->
  length (probs p) <= length (labels st) ->
  l <> "" -> l ∉ labels st ->
  exists rows,
    predictionPanel numberToString st = Some (label p, rows) /\
    length rows = length (labels st) /\
    predictionPanel numberToString (addLabel (Some l) st)
      = Some (label p, rows ++ [(l, "NaN%")]).
Proof.
  intros Hp Hlen Hne Hnew.
  eexists. split; [unfold predictionPanel; rewrite Hp; reflexivity|].
  split; [apply length_imap|].
  unfold addLabel.
  rewrite (bool_decide_eq_false_2 _ Hne), (bool_decide_eq_false_2 _ Hnew).
  cbn [negb andb]. unfold predictionPanel.
  cbn [prediction labels setCurrentLabel setLabels]. rewrite Hp.
  rewrite imap_app. cbn [imap]. rewrite Nat.add_0_r.
  rewrite (lookup_ge_None_2 (probs p) (length (labels st)) Hlen).
  reflexivity.
Qed.

Lemma predictionPanel_after_addLabel_witness :
  exists rows,
    predictionPanel (fun _ => "") (step (ClickPredict Sample.backend) Sample.threeClasses)
      = Some (Some "triangle", rows) /\
    length rows = 3 /\
    predictionPanel (fun _ => "")
      (addLabel (Some "star") (step (ClickPredict Sample.backend) Sample.threeClasses))
      = Some (Some "triangle", rows ++ [("star", "NaN%")]).
Proof.
  apply (predictionPanel_after_addLabel (fun _ => "")
           (step (ClickPredict Sample.backend) Sample.threeClasses)
           {| label := Some "triangle";
              probs := [Fin (1 # 10); Fin (2 # 10); Fin (7 # 10)] |} "star").
  - vm_compute. reflexivity.
  - vm_compute. lia.
  - discriminate.
  - apply (bool_decide_unpack _). vm_compute. reflexivity.
Defined.

(** ** The counts of the examples *)

Lemma totalCount_comm (j1 j2 : string) (z1 z2 : Value) (y : nat) :
  countValue z1 + (countValue z2 + y) = countValue z2 + (countValue z1 + y).
Proof. lia. Qed.

Lemma totalCount_insert_new (ex : gmap string Value) (k : string) (v : Value) :
  ex !! k = None -> totalCount (<[k := v]> ex) = countValue v + totalCount ex.
Proof.
  intros Hk. unfold totalCount.
  rewrite map_fold_insert_L; [reflexivity | | exact Hk].
  intros. apply totalCount_comm; assumption.
Qed.

Lemma totalCount_insert_old (ex : gmap string Value) (k : string) (v v' : Value) :
  ex !! k = Some v ->
  totalCount (<[k := v']> ex) + countValue v = countValue v' + totalCount ex.
Proof.
  intros Hk.
  assert (Hold : totalCount ex = countValue v + totalCount (delete k ex)).
  { unfold totalCount.
    rewrite (map_fold_delete_L (fun _ v total => countValue v + total) 0 k v ex);
      [reflexivity | | exact Hk].
    intros. apply totalCount_comm; assumption. }
  rewrite <- (insert_delete_eq ex k v').
  rewrite (totalCount_insert_new (delete k ex) k v') by apply lookup_delete_eq.
  rewrite Hold. lia.
Qed.

Lemma countValue_whole (q : Q) (n : nat) :
  (q == inject_Z (Z.of_nat n))%Q -> countValue (VNumber (Fin q)) = n.
Proof.
  intros Hq. simpl. rewrite Hq, Qfloor_Z. apply Nat2Z.id.
Qed.

(** What [addExample] writes under a label that [Object.prototype] does not
    have: 1 when the label has no count, and the count plus 1 otherwise. *)
Lemma plusOne_plain (ex : gmap string Value) (c : string) :
  PlainCounts ex -> objectPrototype c = None ->
  exists (q : Q) (n : nat),
    plusOne (labelCount ex c) = VNumber (Fin q) /\ (q == inject_Z (Z.of_nat n))%Q /\ 0 < n /\
    match ex !! c with
    | None => n = 1
    | Some v => n = S (countValue v)
    end.
Proof.
  intros Hplain Hc. unfold labelCount, getProp.
  destruct (ex !! c) as [v|] eqn:Hv.
  - destruct (Hplain c v Hv) as (_ & q & n & -> & Hq & Hn).
    assert (Htruthy : truthy (VNumber (Fin q)) = true).
    { simpl. destruct (Qeq_bool q 0) eqn:Hz; [|reflexivity].
      apply Qeq_bool_iff in Hz. rewrite Hz in Hq.
      assert (Hzero : (inject_Z 0 == inject_Z (Z.of_nat n))%Q) by exact Hq.
      rewrite inject_Z_injective in Hzero. lia. }
    unfold orElse. rewrite Htruthy. cbn [plusOne add].
    exists (q + 1)%Q, (S n). split; [reflexivity|]. split.
    + rewrite Hq, Nat2Z.inj_succ. unfold Z.succ. rewrite inject_Z_plus. reflexivity.
    + split; [lia|]. rewrite (countValue_whole q n Hq). reflexivity.
  - rewrite Hc. simpl. exists (0 + 1)%Q, 1. repeat split. lia.
Qed.

(** X20.  the counts add up.  As long as the counts are whole numbers kept
    under names that [Object.prototype] does not have, and the current
    label is such a name, every step keeps them so and keeps their sum
    equal to the number of recorded examples: [addExample] adds one to one
    count and one example, and no other handler touches either. *)
Theorem counts_add_up (a : Action) (st : State) :
  CountsInvariant st ->
  (forall l, currentLabel st = Some l -> objectPrototype l = None) ->
  CountsInvariant (step a st).
Proof.
  intros [Hplain Htotal] Hcur.
  assert (Hsame : forall st', examples st' = examples st -> datasetRef st' = datasetRef st ->
            CountsInvariant st').
  { intros st' He Hd. unfold CountsInvariant. rewrite He, Hd. split; assumption. }
  destruct a as [pixels| | |backend|backend|faults| |answer| |value|color]; simpl.
  - apply Hsame; unfold draw; destruct (canvasRef st); reflexivity.
  - apply Hsame; unfold clearCanvas, clearCanvasEff; destruct (canvasRef st); reflexivity.
  - destruct (addExample_frame st) as [(s & ->) | (x & c & k & cv & _ & _ & Hc & _ & _ & ->)].
    + apply Hsame; reflexivity.
    + unfold CountsInvariant.
      cbn [examples datasetRef setPrediction setCanvas setStatus setExamples setDataset push xs].
      destruct (plusOne_plain (examples st) c Hplain (Hcur c Hc)) as (q & n & Hv & Hq & Hn & Hcase).
      rewrite Hv. split.
      * intros j v Hj. destruct (decide (c = j)) as [<-|Hne].
        -- rewrite lookup_insert_eq in Hj. injection Hj as <-.
           split; [exact (Hcur c Hc)|]. exists q, n. auto.
        -- rewrite lookup_insert_ne in Hj by exact Hne. exact (Hplain j v Hj).
      * rewrite length_app. simpl. rewrite <- Htotal.
        destruct (examples st !! c) as [v|] eqn:Hold.
        -- pose proof (totalCount_insert_old (examples st) c v (VNumber (Fin q)) Hold) as H.
           rewrite (countValue_whole q n Hq) in H. lia.
        -- rewrite (totalCount_insert_new _ c _ Hold), (countValue_whole q n Hq). lia.
  - destruct (train_frame backend st) as (m & s & ->). apply Hsame; reflexivity.
  - destruct (predict_frame backend st) as [(p & ->) | (s & ->)]; apply Hsame; reflexivity.
  - destruct (saveModel_frame faults st) as (sa & sl & s & ->). apply Hsame; reflexivity.
  - destruct (loadModel_frame st) as (m & ls & c & s & ->). apply Hsame; reflexivity.
  - apply Hsame; unfold addLabel; (destruct answer as [l|]; [destruct (_ && _)|]); reflexivity.
  - apply Hsame; unfold removeLabel; destruct (length (labels st) <=? 1); reflexivity.
  - apply Hsame; reflexivity.
  - apply Hsame; reflexivity.
Qed.

Lemma counts_add_up_witness :
  CountsInvariant (step ClickAddExample Sample.fresh) /\
  labelCount (examples (step ClickAddExample Sample.fresh)) "circle" = VNumber (Fin (0 + 1)).
Proof.
  split; [|vm_compute; reflexivity].
  apply (counts_add_up ClickAddExample Sample.fresh).
  - split; [|reflexivity]. intros k v Hk. vm_compute in Hk. discriminate.
  - intros l [= <-]. reflexivity.
Defined.

Lemma PlainCounts_delete (ex : gmap string Value) (k : string) :
  PlainCounts ex -> PlainCounts (delete k ex).
Proof.
  intros Hplain j v Hj. apply lookup_delete_Some in Hj as [_ Hj]. exact (Hplain j v Hj).
Qed.

Lemma labelCount_delete (ex : gmap string Value) (k l : string) :
  k <> l -> labelCount (delete k ex) l = labelCount ex l.
Proof.
  intros Hne. unfold labelCount, getProp. rewrite lookup_delete_ne by exact Hne. reflexivity.
Qed.

(** The counts shown for a list of different labels are part of the sum of
    all counts. *)
Lemma shown_counts_le_total (ls : list string) :
  forall ex : gmap string Value,
    PlainCounts ex -> NoDup ls -> Forall (fun l => objectPrototype l = None) ls ->
    list_sum (map (fun l => countValue (labelCount ex l)) ls) <= totalCount ex.
Proof.
  induction ls as [|l ls IH]; intros ex Hplain Hnd Hnames; [simpl; lia|].
  apply NoDup_cons in Hnd as [Hl Hnd]. apply Forall_cons in Hnames as [Hname Hnames].
  rewrite map_cons.
  change (list_sum (?x :: ?r)) with (x + list_sum r).
  assert (Hrest : map (fun l' => countValue (labelCount ex l')) ls
                  = map (fun l' => countValue (labelCount (delete l ex) l')) ls).
  { apply map_ext_in. intros l' Hin. rewrite labelCount_delete; [reflexivity|].
    intros ->. apply Hl. apply list_elem_of_In. exact Hin. }
  rewrite Hrest.
  pose proof (IH (delete l ex) (PlainCounts_delete ex l Hplain) Hnd Hnames) as Hle.
  destruct (ex !! l) as [v|] eqn:Hv.
  - assert (Htotal : totalCount ex = countValue v + totalCount (delete l ex)).
    { unfold totalCount.
      rewrite (map_fold_delete_L (fun _ v total => countValue v + total) 0 l v ex);
        [reflexivity | | exact Hv].
      intros. apply totalCount_comm; assumption. }
    assert (Hshown : countValue (labelCount ex l) <= countValue v).
    { unfold labelCount, getProp, orElse. rewrite Hv.
      destruct (truthy v); [reflexivity|]. apply Nat.le_0_l. }
    lia.
  - assert (Hshown : countValue (labelCount ex l) = 0).
    { unfold labelCount, getProp. rewrite Hv, Hname. reflexivity. }
    rewrite (delete_id ex l Hv) in Hle. rewrite <- Hrest. lia.
Qed.

(** X21.  the page never shows more examples than were recorded.  When the
    counts are whole numbers that add up to the number of recorded
    examples, and the labels of the page differ from one another and from
    the names of [Object.prototype], the counts in the rows under
    "Training Examples" add up to at most the number of recorded examples.
    They can add up to less: a removed label keeps its count and its
    examples. *)
Theorem exampleRows_at_most_recorded (st : State) :
  CountsInvariant st -> NoDup (labels st) ->
  Forall (fun l => objectPrototype l = None) (labels st) ->
  list_sum (map (fun row => countValue (snd row)) (exampleRows st))
    <= length (xs (datasetRef st)).
Proof.
  intros [Hplain Htotal] Hnd Hnames. unfold exampleRows. rewrite map_map. cbn [snd].
  rewrite <- Htotal. apply shown_counts_le_total; assumption.
Qed.

Lemma exampleRows_at_most_recorded_witness :
  list_sum (map (fun row => countValue (snd row))
              (exampleRows (run [ClickAddExample; ClickRemoveLabel] Sample.fresh)))
    <= length (xs (datasetRef (run [ClickAddExample; ClickRemoveLabel] Sample.fresh))) /\
  length (xs (datasetRef (run [ClickAddExample; ClickRemoveLabel] Sample.fresh))) = 1 /\
  list_sum (map (fun row => countValue (snd row))
              (exampleRows (run [ClickAddExample; ClickRemoveLabel] Sample.fresh))) = 0 /\
  map fst (exampleRows (run [ClickAddExample; ClickRemoveLabel] Sample.fresh))
    = ["square"].
Proof.
  split; [|repeat split; vm_compute; reflexivity].
  apply (exampleRows_at_most_recorded (run [ClickAddExample; ClickRemoveLabel] Sample.fresh)).
  - split; [|vm_compute; reflexivity].
    assert (He : examples (run [ClickAddExample; ClickRemoveLabel] Sample.fresh)
                 = <["circle" := VNumber (Fin (0 + 1))]> ∅) by (vm_compute; reflexivity).
    rewrite He. intros k v Hk. apply lookup_insert_Some in Hk as [[<- <-] | [_ Hk]].
    + split; [reflexivity|]. exists (0 + 1)%Q, 1. repeat split. lia.
    + rewrite lookup_empty in Hk. discriminate.
  - apply (bool_decide_unpack _). vm_compute. reflexivity.
  - apply (bool_decide_unpack _). vm_compute. reflexivity.
Defined.
